(** * websuck-it-game: the authoritative game server (server.js)

    A shallow embedding of [server.js] and the properties of its
    simulation tick, its connection handling and its broadcasts.

    Conventions of the embedding.
    - A JavaScript number is a binary64 number, and it is embedded three
      times, each time for the statements that the embedding can carry.
      In the handlers and in [tick_player] a number is the real number it
      denotes and arithmetic is exact: [Math.max], [Math.min] and
      [Math.sqrt] are [Rmax], [Rmin] and [sqrt], [Math.round] is
      [floor (x + 1/2)].  This embedding is used for bounds, for what a
      handler leaves unchanged and for the order of the effects, none of
      which depends on the rounding of a sum or a product.  In
      [Rounded.tick_player] every arithmetic operation is followed by
      [round64], the rounding of binary64 to the nearest number with a
      significand of 53 bits, ties to even; it is used for the statements
      about every sequence of ticks that depend on rounding.  In
      [Binary64.tick_player] a number is a binary64 number of the kernel
      ([PrimFloat]), with NaN, the infinities and the two zeros; it is
      used for the values that the code computes on given inputs.
    - [Date.now()] is an integer number of milliseconds, handed to each
      handler by its caller.
    - The outcomes of [crypto.randomBytes] and [Math.random] are handed to
      the connection handler by its caller.
    - A serialised message is represented by the JSON tree it denotes.
    - A handler is a function of the state of the server that returns or
      throws; an exception that leaves a handler, which ends the process
      in Node, is the result [Throw] with the state reached so far.
    - The player objects live in a store: the entry of the map [players]
      and the handlers of a connection refer to the same object. *)

From Stdlib Require Import Reals Lra Lia ZArith List Bool String Ascii.
From Stdlib.Strings Require Import Byte.
From Stdlib Require Floats.
Import ListNotations.

Open Scope string_scope.
Open Scope R_scope.

(** ** Numbers *)

Definition Math_max (a b : R) : R := Rmax a b.
Definition Math_min (a b : R) : R := Rmin a b.
Definition Math_sqrt (a : R) : R := sqrt a.
Definition Math_round (a : R) : R := IZR (Zfloor (a + / 2)).

(** [a !== b] on numbers. *)
Definition strict_neq (a b : R) : bool :=
  if Req_dec_T a b then false else true.

(** ** Entities *)

Module Input.
Record t : Type := mk { up : bool; down : bool; left : bool; right : bool }.
End Input.

(** A connection handle: the [ws] object of one client. *)
Definition Conn : Type := nat.

Module Player.
Record t : Type := mk {
  id : string;
  ws : Conn;
  x : R;
  y : R;
  vx : R;
  vy : R;
  speed : R;
  input : Input.t;
  color : string;
  lastSeen : Z
}.

Definition set_x (p : t) (v : R) : t :=
  mk (id p) (ws p) v (y p) (vx p) (vy p) (speed p) (input p) (color p) (lastSeen p).
Definition set_y (p : t) (v : R) : t :=
  mk (id p) (ws p) (x p) v (vx p) (vy p) (speed p) (input p) (color p) (lastSeen p).
Definition set_vx (p : t) (v : R) : t :=
  mk (id p) (ws p) (x p) (y p) v (vy p) (speed p) (input p) (color p) (lastSeen p).
Definition set_vy (p : t) (v : R) : t :=
  mk (id p) (ws p) (x p) (y p) (vx p) v (speed p) (input p) (color p) (lastSeen p).
Definition set_input (p : t) (v : Input.t) : t :=
  mk (id p) (ws p) (x p) (y p) (vx p) (vy p) (speed p) v (color p) (lastSeen p).
Definition set_lastSeen (p : t) (v : Z) : t :=
  mk (id p) (ws p) (x p) (y p) (vx p) (vy p) (speed p) (input p) (color p) v.
End Player.
Arguments Player.mk id%_string ws%_nat x%_R y%_R vx%_R vy%_R speed%_R input
  color%_string lastSeen%_Z.

(** ** The simulation tick, for one player (server.js, lines 130-151) *)

(** Lines 131-141: the direction of the held keys, normalised when
    diagonal. *)
Definition direction (i : Input.t) : R * R :=
  let dx := 0 in
  let dy := 0 in
  let dy := if Input.up i then dy - 1 else dy in
  let dy := if Input.down i then dy + 1 else dy in
  let dx := if Input.left i then dx - 1 else dx in
  let dx := if Input.right i then dx + 1 else dx in
  if strict_neq dx 0 && strict_neq dy 0 then
    let inv := 1 / Math_sqrt 2 in
    (dx * inv, dy * inv)
  else (dx, dy).

(** Lines 130-151: the body of the loop over the players. *)
Definition tick_player (dt : R) (p : Player.t) : Player.t :=
  let '(dx, dy) := direction (Player.input p) in
  let p := Player.set_vx p (dx * Player.speed p) in
  let p := Player.set_vy p (dy * Player.speed p) in
  let p := Player.set_x p (Player.x p + Player.vx p * dt) in
  let p := Player.set_y p (Player.y p + Player.vy p * dt) in
  let p := Player.set_x p (Math_max 20 (Math_min 980 (Player.x p))) in
  let p := Player.set_y p (Math_max 20 (Math_min 580 (Player.y p))) in
  p.

Definition in_bounds (p : Player.t) : Prop :=
  20 <= Player.x p <= 980 /\ 20 <= Player.y p <= 580.


(** ** JavaScript values and JSON *)

(** A number is the real number it denotes.  The numbers that the server
    writes are finite.  A received numeral that overflows binary64, which
    [JSON.parse] reads as [Infinity], is a large real here: it is truthy
    as [Infinity] is, and the only place where the server writes a
    received value back is the [ts] of a [pong], where the statement is
    kept to the values of [carried]. *)
#[local] Set Warnings "-register-all".
Inductive JValue : Type :=
| JUndefined
| JNull
| JBool (b : bool)
| JNum (r : R)
| JStr (s : string)
| JArr (items : list JValue)
| JObj (fields : list (string * JValue)).

(** The property names that server.js reads from a received message.  None
    of them is defined by the prototype of a string, a number, a boolean,
    an array or a plain object. *)
Inductive Key : Type := k_type | k_input | k_up | k_down | k_left | k_right | k_ts.

Definition key_name (k : Key) : string :=
  match k with
  | k_type => "type" | k_input => "input" | k_up => "up" | k_down => "down"
  | k_left => "left" | k_right => "right" | k_ts => "ts"
  end.

(** The value of an own property; a key that occurs twice in a JSON text
    keeps its last value. *)
Fixpoint own_property (k : string) (fields : list (string * JValue)) : JValue :=
  match fields with
  | [] => JUndefined
  | (k', v) :: rest =>
      match own_property k rest with
      | JUndefined => if (k' =? k)%string then v else JUndefined
      | later => later
      end
  end.

(** [!!v] *)
Definition truthy (v : JValue) : bool :=
  match v with
  | JUndefined | JNull => false
  | JBool b => b
  | JNum r => strict_neq r 0
  | JStr s => negb (s =? "")%string
  | JArr _ | JObj _ => true
  end.

(** [JSON.stringify] on the values that the server builds, and on the
    [ts] of a ping: a property whose value is [undefined] is left out, an
    [undefined] array item becomes [null]. *)
Fixpoint JSON_stringify (v : JValue) : JValue :=
  match v with
  | JArr items =>
      JArr (map (fun item => match item with
                             | JUndefined => JNull
                             | _ => JSON_stringify item
                             end) items)
  | JObj fields =>
      JObj ((fix members (fs : list (string * JValue)) : list (string * JValue) :=
               match fs with
               | [] => []
               | (k, JUndefined) :: rest => members rest
               | (k, item) :: rest => (k, JSON_stringify item) :: members rest
               end) fields)
  | _ => v
  end.

(** What a client sends: a text that [JSON.parse] rejects, or the text of
    a JSON value. *)
Inductive RawData : Type :=
| Unparseable
| JSONText (v : JValue).

(** ** Strings and random identifiers *)

Definition hex_digit (n : N) : ascii :=
  match n with
  | 0%N => "0" | 1%N => "1" | 2%N => "2" | 3%N => "3" | 4%N => "4"
  | 5%N => "5" | 6%N => "6" | 7%N => "7" | 8%N => "8" | 9%N => "9"
  | 10%N => "a" | 11%N => "b" | 12%N => "c" | 13%N => "d" | 14%N => "e"
  | _ => "f"
  end%char.

(** [buf.toString('hex')] *)
Fixpoint toString_hex (buf : list byte) : string :=
  match buf with
  | [] => EmptyString
  | b :: rest =>
      let n := Byte.to_N b in
      String (hex_digit (n / 16)) (String (hex_digit (n mod 16)) (toString_hex rest))
  end.

(** [crypto.randomBytes(n)], drawn from a source of random bytes. *)
Definition crypto_randomBytes (n : nat) (source : nat -> byte) : list byte :=
  map source (seq 0 n).

(** [s.slice(from, to)] for [0 <= from <= to]. *)
Definition slice (from to : nat) (s : string) : string :=
  substring from (to - from) s.

Fixpoint drop (n : nat) (s : string) : string :=
  match n, s with
  | O, _ => s
  | S n', EmptyString => EmptyString
  | S n', String _ rest => drop n' rest
  end.

(** [s.replace(pattern, by)] with a string pattern: the first occurrence. *)
Fixpoint replace (pattern by_ s : string) : string :=
  if prefix pattern s then (by_ ++ drop (String.length pattern) s)%string
  else match s with
       | EmptyString => EmptyString
       | String c rest => String c (replace pattern by_ rest)
       end.

(** ** The state of the server *)

Inductive ReadyState : Type := CONNECTING | OPEN | CLOSING | CLOSED.

(** A reference to a player object made by [createPlayer].  The handlers
    of a connection and the entry of the [players] map share the object. *)
Definition Ref : Type := nat.

(** The record that line 58 stores with [players[id] = ...]. *)
Module Shadow.
Record t : Type := mk {
  x : R; y : R; vx : R; vy : R; color : string; ip : string
}.
End Shadow.
Arguments Shadow.mk x%_R y%_R vx%_R vy%_R color%_string ip%_string.

Inductive Error : Type := TypeError | SyntaxError | SendError.

Inductive LogLine : Type :=
| Player_connected (id : string)
| Player_disconnected (id : string)
| Invalid_message (err : Error).

Module World.
Record t : Type := mk {
  (** the player objects, by reference; [allocated] counts them *)
  objects : Ref -> Player.t;
  allocated : nat;
  (** the entries of the map [players], in insertion order *)
  entries : list (string * Ref);
  (** the own properties that [players[id] = ...] added to the map
      object, in creation order *)
  own : list (string * Shadow.t);
  (** the state of each transport; only the transport changes it *)
  readyState : Conn -> ReadyState;
  (** whether [ws.send] throws when the transport is in the given state
      other than [OPEN] (it depends on the version of the ws library) *)
  send_throws : ReadyState -> bool;
  (** every payload handed to an open transport, latest first *)
  sent : list (Conn * JValue);
  (** the lines written to the console, latest first *)
  console : list LogLine;
  (** [lastTime] of the simulation loop *)
  lastTime : Z
}.

Definition set_objects (w : t) (v : Ref -> Player.t) : t :=
  mk v (allocated w) (entries w) (own w) (readyState w) (send_throws w)
     (sent w) (console w) (lastTime w).
Definition set_allocated (w : t) (v : nat) : t :=
  mk (objects w) v (entries w) (own w) (readyState w) (send_throws w)
     (sent w) (console w) (lastTime w).
Definition set_entries (w : t) (v : list (string * Ref)) : t :=
  mk (objects w) (allocated w) v (own w) (readyState w) (send_throws w)
     (sent w) (console w) (lastTime w).
Definition set_own (w : t) (v : list (string * Shadow.t)) : t :=
  mk (objects w) (allocated w) (entries w) v (readyState w) (send_throws w)
     (sent w) (console w) (lastTime w).
Definition set_readyState (w : t) (v : Conn -> ReadyState) : t :=
  mk (objects w) (allocated w) (entries w) (own w) v (send_throws w)
     (sent w) (console w) (lastTime w).
Definition set_sent (w : t) (v : list (Conn * JValue)) : t :=
  mk (objects w) (allocated w) (entries w) (own w) (readyState w) (send_throws w)
     v (console w) (lastTime w).
Definition set_console (w : t) (v : list LogLine) : t :=
  mk (objects w) (allocated w) (entries w) (own w) (readyState w) (send_throws w)
     (sent w) v (lastTime w).
Definition set_lastTime (w : t) (v : Z) : t :=
  mk (objects w) (allocated w) (entries w) (own w) (readyState w) (send_throws w)
     (sent w) (console w) v.
End World.
Arguments World.mk objects allocated%_nat entries own readyState send_throws
  sent console lastTime%_Z.

(** ** Handlers as state transformers that may throw *)

Inductive Completion (A : Type) : Type :=
| Normal (a : A)
| Throw (err : Error).
Arguments Normal {A} a.
Arguments Throw {A} err.

Definition JS (A : Type) : Type := World.t -> Completion A * World.t.

Definition ret {A : Type} (a : A) : JS A := fun w => (Normal a, w).

Definition throw {A : Type} (err : Error) : JS A := fun w => (Throw err, w).

Definition bind {A B : Type} (m : JS A) (k : A -> JS B) : JS B :=
  fun w =>
    match m w with
    | (Normal a, w') => k a w'
    | (Throw err, w') => (Throw err, w')
    end.

Definition try_catch {A : Type} (body : JS A) (handler : Error -> JS A) : JS A :=
  fun w =>
    match body w with
    | (Normal a, w') => (Normal a, w')
    | (Throw err, w') => handler err w'
    end.

Definition read {A : Type} (f : World.t -> A) : JS A := fun w => (Normal (f w), w).

Definition write (f : World.t -> World.t) : JS unit := fun w => (Normal tt, f w).

Declare Scope js_scope.
Delimit Scope js_scope with js.
Notation "x <- m ;; k" := (bind m (fun x => k))
  (at level 61, m at next level, right associativity) : js_scope.
Notation "m ;;; k" := (bind m (fun _ => k))
  (at level 61, right associativity) : js_scope.
Open Scope js_scope.

(** [for (const a of l) body] *)
Fixpoint for_of {A : Type} (l : list A) (body : A -> JS unit) : JS unit :=
  match l with
  | [] => ret tt
  | a :: rest => body a ;;; for_of rest body
  end.

(** The state a handler leaves behind, thrown or not. *)
Definition exec {A : Type} (m : JS A) (w : World.t) : World.t := snd (m w).

(** ** The map [players] and the properties set on it *)

(** Keyed update that keeps the place of a key already present and puts a
    new key last: the order of a [Map] and of the string-keyed properties
    of an object. *)
Fixpoint keyed_set {V : Type} (k : string) (v : V) (l : list (string * V))
  : list (string * V) :=
  match l with
  | [] => [(k, v)]
  | (k', v') :: rest =>
      if (k' =? k)%string then (k, v) :: rest else (k', v') :: keyed_set k v rest
  end.

Fixpoint keyed_delete {V : Type} (k : string) (l : list (string * V))
  : list (string * V) :=
  match l with
  | [] => []
  | (k', v') :: rest =>
      if (k' =? k)%string then rest else (k', v') :: keyed_delete k rest
  end.

Definition has_key {V : Type} (k : string) (l : list (string * V)) : bool :=
  existsb (fun e => (fst e =? k)%string) l.

(** [players.m]: an own property named [m] hides the method of
    [Map.prototype], and calling the record stored there throws. *)
Definition method (m : string) : JS unit :=
  fun w => if has_key m (World.own w) then (Throw TypeError, w) else (Normal tt, w).

(** [players.set(k, r)] *)
Definition players_set (k : string) (r : Ref) : JS unit :=
  method "set" ;;;
  write (fun w => World.set_entries w (keyed_set k r (World.entries w))).

(** [players.delete(k)]; a key that is absent is left absent. *)
Definition players_delete (k : string) : JS unit :=
  method "delete" ;;;
  write (fun w => World.set_entries w (keyed_delete k (World.entries w))).

(** [players.values()]: the objects of the entries, in insertion order. *)
Definition players_values : JS (list Ref) :=
  method "values" ;;;
  read (fun w => map snd (World.entries w)).

(** [players[k] = v] in sloppy mode: [size] is an accessor of
    [Map.prototype] without a setter, so that assignment does nothing; any
    other key of at most seven characters becomes an own property. *)
Definition players_assign (k : string) (v : Shadow.t) : JS unit :=
  if (k =? "size")%string then ret tt
  else write (fun w => World.set_own w (keyed_set k v (World.own w))).

(** *** [Object.entries]: array indices in ascending order, then the other
    keys in creation order *)

Definition is_digit (c : ascii) : bool :=
  (48 <=? nat_of_ascii c)%nat && (nat_of_ascii c <=? 57)%nat.

Fixpoint digits_value (s : string) (acc : N) : option N :=
  match s with
  | EmptyString => Some acc
  | String c rest =>
      if is_digit c
      then digits_value rest (acc * 10 + N.of_nat (nat_of_ascii c - 48))%N
      else None
  end.

(** The array index a property key denotes, if it is one: a decimal
    numeral in canonical form below [2^32 - 1]. *)
Definition array_index (s : string) : option N :=
  match s with
  | EmptyString => None
  | String c rest =>
      if (Ascii.eqb c "0" && negb (rest =? "")%string)%bool then None
      else match digits_value s 0%N with
           | Some n => if (n <? 4294967295)%N then Some n else None
           | None => None
           end
  end.

Fixpoint insert_by_index {V : Type} (e : N * V) (l : list (N * V)) : list (N * V) :=
  match l with
  | [] => [e]
  | e' :: rest =>
      if (fst e <=? fst e')%N then e :: l else e' :: insert_by_index e rest
  end.

Definition sort_by_index {V : Type} (l : list (N * V)) : list (N * V) :=
  fold_right insert_by_index [] l.

Definition indexed {V : Type} (l : list (string * V)) : list (N * (string * V)) :=
  flat_map (fun e => match array_index (fst e) with
                     | Some n => [(n, e)]
                     | None => []
                     end) l.

Definition Object_entries {V : Type} (l : list (string * V)) : list (string * V) :=
  map snd (sort_by_index (indexed l))
  ++ filter (fun e => match array_index (fst e) with
                      | Some _ => false
                      | None => true
                      end) l.

(** ** Player objects *)

Definition update_object (r : Ref) (f : Player.t -> Player.t) : JS unit :=
  write (fun w =>
    World.set_objects w
      (fun r' => if Nat.eqb r' r then f (World.objects w r) else World.objects w r')).

Definition object (r : Ref) : JS Player.t := read (fun w => World.objects w r).

(** [new]: the next free reference now holds [p]. *)
Definition allocate (p : Player.t) : JS Ref :=
  fun w =>
    let r := World.allocated w in
    (Normal r,
     World.set_allocated
       (World.set_objects w
          (fun r' => if Nat.eqb r' r then p else World.objects w r'))
       (S r)).

(** ** Sending *)

Definition console_log (line : LogLine) : JS unit :=
  write (fun w => World.set_console w (line :: World.console w)).

(** [ws.send(raw)] *)
Definition ws_send (c : Conn) (raw : JValue) : JS unit :=
  fun w =>
    match World.readyState w c with
    | OPEN => (Normal tt, World.set_sent w ((c, raw) :: World.sent w))
    | state => if World.send_throws w state then (Throw SendError, w) else (Normal tt, w)
    end.

Definition is_open (state : ReadyState) : bool :=
  match state with OPEN => true | _ => false end.

(** Lines 112-119. *)
Definition broadcast (obj : JValue) : JS unit :=
  let raw := JSON_stringify obj in
  values <- players_values ;;
  for_of values (fun r =>
    p <- object r ;;
    state <- read (fun w => World.readyState w (Player.ws p)) ;;
    if is_open state then ws_send (Player.ws p) raw else ret tt).

(** ** Messages of the server *)

Definition welcome_message (id ip : string) : JValue :=
  JObj [("type", JStr "welcome"); ("id", JStr id); ("ip", JStr ip)].

(** Lines 63-65: one item of the snapshot built on a connection. *)
Definition join_snapshot_item (e : string * Shadow.t) : JValue :=
  let '(id, p) := e in
  JObj [("id", JStr id); ("x", JNum (Shadow.x p)); ("y", JNum (Shadow.y p));
        ("vx", JNum (Shadow.vx p)); ("vy", JNum (Shadow.vy p));
        ("color", JStr (Shadow.color p)); ("ip", JStr (Shadow.ip p))].

Definition join_snapshot_message (items : list JValue) : JValue :=
  JObj [("type", JStr "snapshot"); ("players", JArr items)].

Definition player_join_message (p : Player.t) : JValue :=
  JObj [("type", JStr "player_join"); ("id", JStr (Player.id p));
        ("x", JNum (Player.x p)); ("y", JNum (Player.y p));
        ("color", JStr (Player.color p))].

Definition remove_message (id : string) : JValue :=
  JObj [("type", JStr "remove"); ("id", JStr id)].

Definition pong_message (ts : JValue) : JValue :=
  JObj [("type", JStr "pong"); ("ts", ts)].

(** Lines 166-173: one item of the periodic snapshot. *)
Definition snapshot_item (p : Player.t) : JValue :=
  JObj [("id", JStr (Player.id p));
        ("x", JNum (Math_round (Player.x p))); ("y", JNum (Math_round (Player.y p)));
        ("vx", JNum (Math_round (Player.vx p))); ("vy", JNum (Math_round (Player.vy p)));
        ("color", JStr (Player.color p))].

Definition snapshot_message (ts : Z) (items : list JValue) : JValue :=
  JObj [("type", JStr "snapshot"); ("ts", JNum (IZR ts)); ("players", JArr items)].

(** ** The connection handler (lines 31-88) *)

(** What the random sources give during one connection, in the order of
    their use. *)
Record Entropy : Type := {
  id_bytes : nat -> byte;            (* line 36 *)
  spawn_x : R;                       (* line 40, [Math.random()] *)
  spawn_y : R;                       (* line 41, [Math.random()] *)
  color_bytes : nat -> byte;         (* line 46 *)
  random_text : string;              (* line 56, [Math.random().toString(36)] *)
  shadow_color_bytes : nat -> byte   (* line 58 *)
}.

Arguments Build_Entropy id_bytes spawn_x%_R spawn_y%_R color_bytes
  random_text%_string shadow_color_bytes.

Record Request : Type := {
  (** [req.socket.remoteAddress]; [undefined] once the socket is destroyed *)
  remoteAddress : option string
}.

Definition randomColor (source : nat -> byte) : string :=
  ("#" ++ toString_hex (crypto_randomBytes 3 source))%string.

Definition createPlayer (ws : Conn) (e : Entropy) (now : Z) : JS Ref :=
  let id := toString_hex (crypto_randomBytes 8 (id_bytes e)) in
  allocate
    (Player.mk id ws (spawn_x e * 600 + 100) (spawn_y e * 400 + 100) 0 0 180
       (Input.mk false false false false) (randomColor (color_bytes e)) now).

(** The identifier of line 56. *)
Definition welcome_id (e : Entropy) : string := slice 2 9 (random_text e).

(** [wss.on('connection', ...)].  The result is the player object that the
    message and close handlers of this connection hold. *)
Definition on_connection (ws : Conn) (req : Request) (e : Entropy) (now : Z) : JS Ref :=
  player <- createPlayer ws e now ;;
  p <- object player ;;
  players_set (Player.id p) player ;;;
  ip <- match remoteAddress req with
        | Some address => ret (replace "::ffff:" "" address)
        | None => throw TypeError
        end ;;
  let id := welcome_id e in
  players_assign id (Shadow.mk 100 100 0 0 (randomColor (shadow_color_bytes e)) ip) ;;;
  ws_send ws (JSON_stringify (welcome_message id ip)) ;;;
  own <- read World.own ;;
  let snapshot := map join_snapshot_item (Object_entries own) in
  broadcast (join_snapshot_message snapshot) ;;;
  p <- object player ;;
  console_log (Player_connected (Player.id p)) ;;;
  p <- object player ;;
  broadcast (player_join_message p) ;;;
  ret player.

(** ** Received messages (lines 71-78 and 90-110) *)

Definition JSON_parse (raw : RawData) : JS JValue :=
  match raw with
  | Unparseable => throw SyntaxError
  | JSONText v => ret v
  end.

(** [v.k]: reading a property of [undefined] or [null] throws. *)
Definition get_prop (v : JValue) (k : Key) : JS JValue :=
  match v with
  | JUndefined | JNull => throw TypeError
  | JObj fields => ret (own_property (key_name k) fields)
  | _ => ret JUndefined
  end.

(** [!!msg.input.k] *)
Definition input_flag (msg : JValue) (k : Key) : JS bool :=
  i <- get_prop msg k_input ;;
  v <- get_prop i k ;;
  ret (truthy v).

Definition handleMessage (player : Ref) (msg : JValue) (now : Z) : JS unit :=
  update_object player (fun p => Player.set_lastSeen p now) ;;;
  type <- get_prop msg k_type ;;
  match type with
  | JStr s =>
      if (s =? "input")%string then
        up <- input_flag msg k_up ;;
        down <- input_flag msg k_down ;;
        left <- input_flag msg k_left ;;
        right <- input_flag msg k_right ;;
        update_object player (fun p => Player.set_input p (Input.mk up down left right))
      else if (s =? "ping")%string then
        p <- object player ;;
        ts <- get_prop msg k_ts ;;
        ws_send (Player.ws p) (JSON_stringify (pong_message ts))
      else ret tt
  | _ => ret tt
  end.

(** [ws.on('message', ...)] *)
Definition on_message (player : Ref) (raw : RawData) (now : Z) : JS unit :=
  try_catch
    (msg <- JSON_parse raw ;; handleMessage player msg now)
    (fun err => console_log (Invalid_message err)).

(** ** Disconnection (lines 80-84) *)

Definition on_close (player : Ref) : JS unit :=
  p <- object player ;;
  players_delete (Player.id p) ;;;
  p <- object player ;;
  broadcast (remove_message (Player.id p)) ;;;
  p <- object player ;;
  console_log (Player_disconnected (Player.id p)).

(** ** The two timers (lines 121-176) *)

Definition simulation_loop (now : Z) : JS unit :=
  last <- read World.lastTime ;;
  let dt := IZR (now - last) / 1000 in
  write (fun w => World.set_lastTime w now) ;;;
  values <- players_values ;;
  for_of values (fun r => update_object r (tick_player dt)).

Definition snapshot_broadcaster (now : Z) : JS unit :=
  values <- players_values ;;
  objects <- read (fun w => map (World.objects w) values) ;;
  broadcast (snapshot_message now (map snapshot_item objects)).

(** ** Observations used by the statements *)

(** The connections a broadcast reaches: the transports of the entries of
    [players] that are open, in the order of the entries. *)
Definition recipients (w : World.t) : list Conn :=
  map (fun r => Player.ws (World.objects w r))
    (filter (fun r => is_open (World.readyState w (Player.ws (World.objects w r))))
       (map snd (World.entries w))).

(** What a completed broadcast of [obj] adds to [sent]. *)
Definition deliveries (obj : JValue) (w : World.t) : list (Conn * JValue) :=
  rev (map (fun c => (c, JSON_stringify obj)) (recipients w)).

(** The payloads that running [m] in [w] hands to transports. *)
Definition delivered {A : Type} (m : JS A) (w : World.t) : list (Conn * JValue) :=
  let w' := exec m w in
  firstn (List.length (World.sent w') - List.length (World.sent w)) (World.sent w').

(** The [type] of a message. *)
Definition message_type (payload : JValue) : option string :=
  match payload with
  | JObj fields =>
      match own_property "type" fields with
      | JStr s => Some s
      | _ => None
      end
  | _ => None
  end.

(** The property names of an object, in order. *)
Definition keys (v : JValue) : list string :=
  match v with
  | JObj fields => map fst fields
  | _ => []
  end.

(** The [id]s of the items of the [players] array of a snapshot. *)
Definition snapshot_ids (payload : JValue) : list JValue :=
  match payload with
  | JObj fields =>
      match own_property "players" fields with
      | JArr items =>
          map (fun item => match item with
                           | JObj item_fields => own_property "id" item_fields
                           | _ => JUndefined
                           end) items
      | _ => []
      end
  | _ => []
  end.

(** The players in the registry: the objects of the entries of [players]. *)
Definition registered (w : World.t) : list Player.t :=
  map (fun e => World.objects w (snd e)) (World.entries w).

Definition idle : Input.t := Input.mk false false false false.
Definition right_only : Input.t := Input.mk false false false true.

(** The [type] tags of the payloads in a list of deliveries. *)
Definition has_type (t : string) (d : Conn * JValue) : bool :=
  match message_type (snd d) with
  | Some s => (s =? t)%string
  | None => false
  end.

Definition of_type (t : string) (l : list (Conn * JValue)) : list (Conn * JValue) :=
  filter (has_type t) l.

(** The property names of the items of the [players] array of a snapshot. *)
Definition snapshot_item_keys (payload : JValue) : list (list string) :=
  match payload with
  | JObj fields =>
      match own_property "players" fields with
      | JArr items => map keys items
      | _ => []
      end
  | _ => []
  end.

(** [v.k] where it does not throw. *)
Definition property (v : JValue) (k : Key) : JValue :=
  match v with
  | JObj fields => own_property (key_name k) fields
  | _ => JUndefined
  end.

Definition absent (v : JValue) : bool :=
  match v with
  | JUndefined | JNull => true
  | _ => false
  end.

(** The received data on which the body of the [try] of lines 72-77
    throws: a text that does not parse, the text [null], and an [input]
    message whose [input] is absent.  These are fewer than the messages
    that miss a required field. *)
Definition rejected (raw : RawData) : bool :=
  match raw with
  | Unparseable => true
  | JSONText msg =>
      absent msg
      || match message_type msg with
         | Some s => (s =? "input")%string && absent (property msg k_input)
         | None => false
         end
  end.

(** The input state that an [input] object denotes: [!!] of its four
    properties. *)
Definition flags (i : JValue) : Input.t :=
  Input.mk (truthy (property i k_up)) (truthy (property i k_down))
    (truthy (property i k_left)) (truthy (property i k_right)).

(** The state after line 91. *)
Definition touched (player : Ref) (now : Z) (w : World.t) : World.t :=
  exec (update_object player (fun p => Player.set_lastSeen p now)) w.

(** ** The steps of the connection handler *)

(** The body of the loop of [broadcast]. *)
Definition send_if_open (raw : JValue) (r : Ref) : JS unit :=
  p <- object r ;;
  state <- read (fun w => World.readyState w (Player.ws p)) ;;
  if is_open state then ws_send (Player.ws p) raw else ret tt.

(** The state after a broadcast that ran to its end. *)
Definition after_broadcast (obj : JValue) (w : World.t) : World.t :=
  World.set_sent w (deliveries obj w ++ World.sent w).

Definition new_player (ws : Conn) (e : Entropy) (now : Z) : Player.t :=
  Player.mk (toString_hex (crypto_randomBytes 8 (id_bytes e))) ws
    (spawn_x e * 600 + 100) (spawn_y e * 400 + 100) 0 0 180
    (Input.mk false false false false) (randomColor (color_bytes e)) now.

Definition shadow_record (e : Entropy) (ip : string) : Shadow.t :=
  Shadow.mk 100 100 0 0 (randomColor (shadow_color_bytes e)) ip.

Definition clean (address : string) : string := replace "::ffff:" "" address.

Definition stage_created (ws : Conn) (e : Entropy) (now : Z) (w : World.t) : World.t :=
  World.set_allocated
    (World.set_objects w
       (fun r' => if Nat.eqb r' (World.allocated w) then new_player ws e now
                  else World.objects w r'))
    (S (World.allocated w)).

Definition stage_inserted (ws : Conn) (e : Entropy) (now : Z) (w : World.t) : World.t :=
  let w1 := stage_created ws e now w in
  World.set_entries w1
    (keyed_set (Player.id (new_player ws e now)) (World.allocated w) (World.entries w1)).

Definition stage_assigned (ws : Conn) (address : string) (e : Entropy) (now : Z)
    (w : World.t) : World.t :=
  let w2 := stage_inserted ws e now w in
  if (welcome_id e =? "size")%string then w2
  else World.set_own w2
         (keyed_set (welcome_id e) (shadow_record e (clean address)) (World.own w2)).

Definition stage_welcomed (ws : Conn) (address : string) (e : Entropy) (now : Z)
    (w : World.t) : World.t :=
  let w3 := stage_assigned ws address e now w in
  if is_open (World.readyState w ws)
  then World.set_sent w3
         ((ws, JSON_stringify (welcome_message (welcome_id e) (clean address)))
            :: World.sent w3)
  else w3.

Definition stage_snapshot (ws : Conn) (address : string) (e : Entropy) (now : Z)
    (w : World.t) : World.t :=
  let w4 := stage_welcomed ws address e now w in
  after_broadcast
    (join_snapshot_message (map join_snapshot_item (Object_entries (World.own w4)))) w4.

Definition stage_joined (ws : Conn) (address : string) (e : Entropy) (now : Z)
    (w : World.t) : World.t :=
  let w5 := stage_snapshot ws address e now w in
  let w6 := World.set_console w5
              (Player_connected (Player.id (new_player ws e now)) :: World.console w5) in
  after_broadcast (player_join_message (new_player ws e now)) w6.

(** The conditions under which the connection handler runs to its end. *)
Definition connects (ws : Conn) (req : Request) (e : Entropy) (w : World.t) : bool :=
  negb (has_key "set" (World.own w))
  && match remoteAddress req with Some _ => true | None => false end
  && (is_open (World.readyState w ws) || negb (World.send_throws w (World.readyState w ws)))
  && negb (has_key "values" (World.own w))
  && negb (welcome_id e =? "values")%string.


(** The payload of the periodic snapshot of [w] taken at [now]. *)
Definition periodic_snapshot (now : Z) (w : World.t) : JValue :=
  snapshot_message now (map snapshot_item (registered w)).

(** The registry as a map: no key twice, every player under its own id. *)
Definition registry_ok (w : World.t) : Prop :=
  NoDup (map fst (World.entries w)) /\
  (forall (k : string) (r : Ref),
      In (k, r) (World.entries w) -> Player.id (World.objects w r) = k).

(** The state after the close handler of [player] ran to its end. *)
Definition after_close (player : Ref) (w : World.t) : World.t :=
  let id := Player.id (World.objects w player) in
  let w1 := World.set_entries w (keyed_delete id (World.entries w)) in
  let w2 := after_broadcast (remove_message id) w1 in
  World.set_console w2 (Player_disconnected id :: World.console w2).

(** What the handler hands to the transport of the new connection at line 60. *)
Definition welcome_delivery (ws : Conn) (address : string) (e : Entropy) (w : World.t)
  : list (Conn * JValue) :=
  if is_open (World.readyState w ws)
  then [(ws, welcome_message (welcome_id e) (clean address))] else [].

Arguments on_connection ws%_nat req e now%_Z.
Arguments on_message player%_nat raw now%_Z.
Arguments on_close player%_nat.
Arguments handleMessage player%_nat msg now%_Z.
Arguments simulation_loop now%_Z.
Arguments snapshot_broadcaster now%_Z.
Arguments new_player ws%_nat e now%_Z.

(** ** Concrete runs *)

Definition nobody : Player.t := Player.mk "" 0 0 0 0 0 0 idle "" 0.

(** A server that nobody has connected to yet; every transport is open. *)
Definition empty_world : World.t :=
  World.mk (fun _ => nobody) 0 [] [] (fun _ => OPEN) (fun _ => true) [] [] 0.

Definition entropy_A : Entropy :=
  Build_Entropy (fun _ => x0a) (/ 2) (/ 2) (fun _ => xff) "0.k3j9x2aq1f" (fun _ => x10).

Definition request_A : Request := Build_Request (Some "::ffff:10.0.0.7").

Definition entropy_B : Entropy :=
  Build_Entropy (fun _ => x0b) (/ 4) (/ 4) (fun _ => x80) "0.q81m5zt0c2" (fun _ => x20).

Definition request_B : Request := Build_Request (Some "::ffff:10.0.0.8").

(** The transport of [c] goes to [state]. *)
Definition transport (c : Conn) (state : ReadyState) (w : World.t) : World.t :=
  World.set_readyState w
    (fun c' => if Nat.eqb c' c then state else World.readyState w c').
Arguments transport c%_nat state w.

(** A connects on transport 1. *)
Definition world_A : World.t :=
  exec (on_connection 1 request_A entropy_A 1000) empty_world.

(** Then A disconnects. *)
Definition world_A_gone : World.t :=
  exec (on_close 0) (transport 1 CLOSED world_A).

(** A holds the right key. *)
Definition hold_right : RawData :=
  JSONText (JObj [("type", JStr "input"); ("input", JObj [("right", JBool true)])]).

Definition world_A_right : World.t := exec (on_message 0 hold_right 1100) world_A.

(** An [input] message without its [input] object. *)
Definition bare_input : RawData := JSONText (JObj [("type", JStr "input")]).

(** Then B connects on transport 2. *)
Definition connection_B : JS Ref := on_connection 2 request_B entropy_B 2000.

(** ** Further observations *)

(** [players.get(k)] *)
Fixpoint keyed_get {V : Type} (k : string) (l : list (string * V)) : option V :=
  match l with
  | [] => None
  | (k', v) :: rest => if (k' =? k)%string then Some v else keyed_get k rest
  end.

(** The registry as the handlers keep it: no key twice, every player under
    its own id, every entry an object that was made. *)
Definition well_formed (w : World.t) : Prop :=
  NoDup (map fst (World.entries w)) /\
  (forall (k : string) (r : Ref),
      In (k, r) (World.entries w) ->
      Player.id (World.objects w r) = k /\ (r < World.allocated w)%nat).

(** The characters of [toString('hex')]. *)
Definition is_hex (c : ascii) : bool :=
  existsb (Ascii.eqb c)
    (list_ascii_of_string "0123456789abcdef").

(** The value of a hexadecimal digit. *)
Definition hex_value (c : ascii) : N :=
  (if is_digit c then N.of_nat (nat_of_ascii c - 48)
   else N.of_nat (nat_of_ascii c - 87))%N.

(** [s.includes(pattern)] *)
Fixpoint includes (pattern s : string) : bool :=
  prefix pattern s
  || match s with
     | EmptyString => false
     | String _ rest => includes pattern rest
     end.

(** The values of [ts] that [JSON.parse] and [JSON.stringify] carry
    unchanged: a string, a boolean, [null], and an integer that binary64
    holds exactly, as [Date.now()] gives. *)
Definition carried (v : JValue) : Prop :=
  match v with
  | JNull | JBool _ | JStr _ => True
  | JNum r => exists z : Z, r = IZR z /\ (Z.abs z <= 2 ^ 53)%Z
  | _ => False
  end.

Definition up_left : Input.t := Input.mk true false true false.

(** A second connection that draws the bytes of A again. *)
Definition entropy_A' : Entropy :=
  Build_Entropy (fun _ => x0a) (/ 8) (/ 8) (fun _ => x01) "0.zz81m5zt0c" (fun _ => x30).

(** A pings with the time 42. *)
Definition ping_42 : RawData :=
  JSONText (JObj [("type", JStr "ping"); ("ts", JNum 42)]).

(** A and B are both connected. *)
Definition world_AB : World.t :=
  exec (on_connection 2 request_B entropy_B 2000) world_A.

(** Messages that miss a required field and are handled all the same. *)
Definition garbage_input : RawData :=
  JSONText (JObj [("type", JStr "input"); ("input", JStr "garbage")]).

Definition bare_ping : RawData := JSONText (JObj [("type", JStr "ping")]).

Definition empty_message : RawData := JSONText (JObj []).

(** ** Binary64 with its rounding *)

(** [floor (log2 |x|)] *)
Definition exponent (x : R) : Z := Zfloor (ln (Rabs x) / ln 2).

(** The integer nearest to [r]; of two nearest integers, the even one. *)
Definition nearest_even (r : R) : Z :=
  let f := Zfloor r in
  if Rlt_dec (r - IZR f) (/ 2) then f
  else if Rlt_dec (/ 2) (r - IZR f) then (f + 1)%Z
  else if Z.even f then f else (f + 1)%Z.

(** The rounding of binary64: the nearest number with a significand of 53
    bits, ties to even.  The exponent is not bounded, so this is the
    rounding of the code for results between 2^-1022 and 2^1024 in
    magnitude, and for 0. *)
Definition round64 (x : R) : R :=
  if Req_dec_T x 0 then 0
  else let e := (exponent x - 52)%Z in
       IZR (nearest_even (x * powerRZ 2 (- e))) * powerRZ 2 e.



(** Lines 130-151 with the rounding of each operation. *)
Module Rounded.

Definition direction (i : Input.t) : R * R :=
  let dx := 0 in
  let dy := 0 in
  let dy := if Input.up i then round64 (dy - 1) else dy in
  let dy := if Input.down i then round64 (dy + 1) else dy in
  let dx := if Input.left i then round64 (dx - 1) else dx in
  let dx := if Input.right i then round64 (dx + 1) else dx in
  if strict_neq dx 0 && strict_neq dy 0 then
    let inv := round64 (1 / round64 (Math_sqrt 2)) in
    (round64 (dx * inv), round64 (dy * inv))
  else (dx, dy).

Definition tick_player (dt : R) (p : Player.t) : Player.t :=
  let '(dx, dy) := direction (Player.input p) in
  let p := Player.set_vx p (round64 (dx * Player.speed p)) in
  let p := Player.set_vy p (round64 (dy * Player.speed p)) in
  let p := Player.set_x p (round64 (Player.x p + round64 (Player.vx p * dt))) in
  let p := Player.set_y p (round64 (Player.y p + round64 (Player.vy p * dt))) in
  let p := Player.set_x p (Math_max 20 (Math_min 980 (Player.x p))) in
  let p := Player.set_y p (Math_max 20 (Math_min 580 (Player.y p))) in
  p.

(** Successive ticks of one player, one per measured [dt]. *)
Fixpoint run_ticks (dts : list R) (p : Player.t) : Player.t :=
  match dts with
  | [] => p
  | dt :: rest => run_ticks rest (tick_player dt p)
  end.

End Rounded.

(** Lines 122-152 on the binary64 numbers of the kernel. *)
Module Binary64.

Import PrimFloat SpecFloat FloatOps.
#[local] Open Scope float_scope.

(** The fields of a player that the simulation loop reads or writes. *)
Record player : Type := mk {
  x : float;
  y : float;
  vx : float;
  vy : float;
  speed : float;
  input : Input.t
}.

Definition Math_sqrt (a : float) : float := PrimFloat.sqrt a.

Definition is_negative_zero (a : float) : bool :=
  match classify a with
  | FloatClass.NZero => true
  | _ => false
  end.

(** [Math.max] and [Math.min] of two numbers: NaN when one of them is NaN,
    and -0 below +0. *)
Definition Math_max (a b : float) : float :=
  if is_nan a || is_nan b then nan
  else if a <? b then b
  else if b <? a then a
  else if is_negative_zero a then b else a.

Definition Math_min (a b : float) : float :=
  if is_nan a || is_nan b then nan
  else if a <? b then a
  else if b <? a then b
  else if is_negative_zero a then a else b.

(** [a !== b] on numbers. *)
Definition strict_neq (a b : float) : bool := negb (a =? b).

Definition direction (i : Input.t) : float * float :=
  let dx := 0 in
  let dy := 0 in
  let dy := if Input.up i then dy - 1 else dy in
  let dy := if Input.down i then dy + 1 else dy in
  let dx := if Input.left i then dx - 1 else dx in
  let dx := if Input.right i then dx + 1 else dx in
  if strict_neq dx 0 && strict_neq dy 0 then
    let inv := 1 / Math_sqrt 2 in
    (dx * inv, dy * inv)
  else (dx, dy).

Definition tick_player (dt : float) (p : player) : player :=
  let '(dx, dy) := direction (input p) in
  let vx := dx * speed p in
  let vy := dy * speed p in
  let x := x p + vx * dt in
  let y := y p + vy * dt in
  let x := Math_max 20 (Math_min 980 x) in
  let y := Math_max 20 (Math_min 580 y) in
  mk x y vx vy (speed p) (input p).

(** Successive ticks of one player, one per [dt]. *)
Fixpoint run_ticks (dts : list float) (p : player) : player :=
  match dts with
  | [] => p
  | dt :: rest => run_ticks rest (tick_player dt p)
  end.

(** Successive runs of the loop at the clock readings [nows], for one
    player: lines 124-126 give each run its [dt]. *)
Fixpoint run_loops (lastTime : float) (nows : list float) (p : player) : player :=
  match nows with
  | [] => p
  | now :: rest =>
      let dt := (now - lastTime) / 1000 in
      run_loops now rest (tick_player dt p)
  end.

(** The length of a vector, computed in binary64. *)
Definition magnitude (v : float * float) : float :=
  Math_sqrt (fst v * fst v + snd v * snd v).

(** The number m * 2^e that a finite value denotes, as the pair (m, e). *)
Definition decode (a : float) : option (Z * Z) :=
  match Prim2SF a with
  | S754_zero _ => Some (0, 0)%Z
  | S754_finite s m e => Some (if s then Z.neg m else Z.pos m, e)
  | _ => None
  end.




(** The binary64 value of [1 / Math.sqrt(2)], printed 0.7071067811865475. *)
Definition inv_sqrt2 : float := 0x1.6a09e667f3bccp-1.

(** A player at (500, 300) with the speed of [createPlayer]. *)
Definition at_500_300 (keys : Input.t) : player := mk 500 300 0 0 180 keys.



End Binary64.

(** * Properties *)

(** ** The tick of one player *)

Lemma inv_sqrt2_sq : (1 / Math_sqrt 2) * (1 / Math_sqrt 2) = / 2.
Proof.
  unfold Math_sqrt.
  assert (H : sqrt 2 * sqrt 2 = 2) by (apply sqrt_sqrt; lra).
  assert (Hn : sqrt 2 <> 0) by (apply sqrt2_neq_0).
  field_simplify_eq; [ lra | exact Hn ].
Qed.

Lemma strict_neq_true (a b : R) : a <> b -> strict_neq a b = true.
Proof. intros H. unfold strict_neq. destruct (Req_dec_T a b); [ contradiction | reflexivity ]. Qed.

Lemma strict_neq_false (a b : R) : a = b -> strict_neq a b = false.
Proof. intros H. unfold strict_neq. destruct (Req_dec_T a b); [ reflexivity | contradiction ]. Qed.

(** Settles the [!==] tests between numerals. *)
Ltac decide_neq :=
  repeat first
    [ rewrite strict_neq_true by lra
    | rewrite strict_neq_false by lra ].

(** The direction, by the keys held on each axis. *)
Lemma direction_cases (i : Input.t) :
  direction i =
    let ax := (if Input.left i then -1 else 0) + (if Input.right i then 1 else 0) in
    let ay := (if Input.up i then -1 else 0) + (if Input.down i then 1 else 0) in
    if xorb (Input.left i) (Input.right i) && xorb (Input.up i) (Input.down i)
    then (ax * (1 / Math_sqrt 2), ay * (1 / Math_sqrt 2))
    else (ax, ay).
Proof.
  destruct i as [[] [] [] []]; unfold direction; cbn [Input.up Input.down Input.left Input.right];
    decide_neq; cbn [andb xorb negb]; f_equal; lra.
Qed.

(** The clamp of lines 150-151. *)
Lemma clamp_bounds (lo hi v : R) : lo <= hi -> lo <= Math_max lo (Math_min hi v) <= hi.
Proof.
  intros H. unfold Math_max, Math_min. split.
  - apply Rmax_l.
  - apply Rmax_lub; [ exact H | apply Rmin_l ].
Qed.

Lemma clamp_id (lo hi v : R) : lo <= v <= hi -> Math_max lo (Math_min hi v) = v.
Proof.
  intros [H1 H2]. unfold Math_max, Math_min.
  rewrite (Rmin_right hi v) by exact H2.
  apply Rmax_right. exact H1.
Qed.

(** The fields of a player after a tick. *)
Lemma tick_player_x (dt : R) (p : Player.t) :
  Player.x (tick_player dt p) =
    Math_max 20 (Math_min 980 (Player.x p + fst (direction (Player.input p)) * Player.speed p * dt)).
Proof. unfold tick_player. destruct (direction (Player.input p)); reflexivity. Qed.

Lemma tick_player_y (dt : R) (p : Player.t) :
  Player.y (tick_player dt p) =
    Math_max 20 (Math_min 580 (Player.y p + snd (direction (Player.input p)) * Player.speed p * dt)).
Proof. unfold tick_player. destruct (direction (Player.input p)); reflexivity. Qed.

Lemma tick_player_vx (dt : R) (p : Player.t) :
  Player.vx (tick_player dt p) = fst (direction (Player.input p)) * Player.speed p.
Proof. unfold tick_player. destruct (direction (Player.input p)); reflexivity. Qed.

Lemma tick_player_vy (dt : R) (p : Player.t) :
  Player.vy (tick_player dt p) = snd (direction (Player.input p)) * Player.speed p.
Proof. unfold tick_player. destruct (direction (Player.input p)); reflexivity. Qed.

Lemma tick_player_frame (dt : R) (p : Player.t) :
  Player.id (tick_player dt p) = Player.id p /\
  Player.ws (tick_player dt p) = Player.ws p /\
  Player.speed (tick_player dt p) = Player.speed p /\
  Player.input (tick_player dt p) = Player.input p /\
  Player.color (tick_player dt p) = Player.color p /\
  Player.lastSeen (tick_player dt p) = Player.lastSeen p.
Proof. unfold tick_player. destruct (direction (Player.input p)); repeat split. Qed.

Lemma tick_player_in_bounds (dt : R) (p : Player.t) : in_bounds (tick_player dt p).
Proof.
  unfold in_bounds. rewrite tick_player_x, tick_player_y.
  split; apply clamp_bounds; lra.
Qed.




Lemma player_ext (p q : Player.t) :
  Player.id p = Player.id q -> Player.ws p = Player.ws q ->
  Player.x p = Player.x q -> Player.y p = Player.y q ->
  Player.vx p = Player.vx q -> Player.vy p = Player.vy q ->
  Player.speed p = Player.speed q -> Player.input p = Player.input q ->
  Player.color p = Player.color q -> Player.lastSeen p = Player.lastSeen q ->
  p = q.
Proof.
  destruct p, q. cbn [Player.id Player.ws Player.x Player.y Player.vx Player.vy
                      Player.speed Player.input Player.color Player.lastSeen].
  intros; subst; reflexivity.
Qed.

Lemma direction_idle : direction idle = (0, 0).
Proof.
  unfold direction, idle. cbn [Input.up Input.down Input.left Input.right].
  rewrite strict_neq_false by reflexivity. reflexivity.
Qed.

Lemma idle_tick (dt : R) (p : Player.t) :
  Player.input p = idle -> in_bounds p ->
  tick_player dt p = Player.set_vy (Player.set_vx p 0) 0.
Proof.
  intros Hi [Hx Hy].
  pose proof (tick_player_frame dt p) as (F1 & F2 & F3 & F4 & F5 & F6).
  apply player_ext; try assumption.
  - rewrite tick_player_x, Hi, direction_idle. cbn [fst Player.set_vy Player.set_vx Player.x].
    rewrite clamp_id; lra.
  - rewrite tick_player_y, Hi, direction_idle. cbn [snd Player.set_vy Player.set_vx Player.y].
    rewrite clamp_id; lra.
  - rewrite tick_player_vx, Hi, direction_idle. cbn [fst Player.set_vy Player.set_vx Player.vx].
    lra.
  - rewrite tick_player_vy, Hi, direction_idle. cbn [snd Player.set_vy Player.set_vx Player.vy].
    lra.
Qed.

(** C10: a player whose four keys are all released and whose position is
    within [20, 980] x [20, 580] keeps its position in a tick and gets the
    velocity (0, 0), whatever [dt]; nothing else of the player changes, and
    a further tick changes nothing at all. *)
Theorem idle_fixed_point (dt : R) (p : Player.t) :
  Player.input p = idle -> in_bounds p ->
  Player.x (tick_player dt p) = Player.x p /\
  Player.y (tick_player dt p) = Player.y p /\
  Player.vx (tick_player dt p) = 0 /\
  Player.vy (tick_player dt p) = 0 /\
  tick_player dt p = Player.set_vy (Player.set_vx p 0) 0 /\
  (forall dt' : R, tick_player dt' (tick_player dt p) = tick_player dt p).
Proof.
  intros Hi Hb. pose proof (idle_tick dt p Hi Hb) as E.
  rewrite E. repeat (split; [ reflexivity | ]).
  intros dt'. rewrite idle_tick; [ reflexivity | exact Hi | exact Hb ].
Qed.

(** A player at rest at (500, 300) with a stale velocity of (7, 7). *)
Lemma idle_fixed_point_witness :
  tick_player (/ 60) (Player.mk "a" 1 500 300 7 7 180 idle "#000000" 0)
  = Player.mk "a" 1 500 300 0 0 180 idle "#000000" 0.
Proof.
  destruct (idle_fixed_point (/ 60) (Player.mk "a" 1 500 300 7 7 180 idle "#000000" 0))
    as (_ & _ & _ & _ & E & _).
  - reflexivity.
  - unfold in_bounds. cbn. lra.
  - exact E.
Defined.

Lemma direction_right_only : direction right_only = (1, 0).
Proof.
  unfold direction, right_only. cbn [Input.up Input.down Input.left Input.right].
  rewrite (strict_neq_false 0 0) by reflexivity. rewrite andb_false_r. f_equal; lra.
Qed.


(** ** The rounding of binary64 *)













(** ** A second of movement to the right *)










(** ** The direction and the velocity in binary64 *)

Section Binary64_values.
Import PrimFloat.

(** C2, amended: for every combination of keys the direction computed by
    a tick is (0, 0) when no axis is active, a vector along one axis with
    magnitude exactly 1 when one axis is active, and (+-k, +-k) when both
    are, where k = 0.7071067811865475 is the binary64 value of
    [1 / Math.sqrt(2)]; the magnitude of this last vector is 1 only up to
    rounding: computed in binary64 it is 0.9999999999999999, and without
    rounding its square 2 k^2 is below 1 by less than 2^-52.  The velocity
    that the tick stores is the binary64 product of each component of the
    direction and the speed, whatever velocity was stored before. *)
Theorem velocity_is_speed_times_rounded_direction (dt : PrimFloat.float) (p : Binary64.player) :
  let i := Binary64.input p in
  let d := Binary64.direction i in
  let ax := xorb (Input.left i) (Input.right i) in
  let ay := xorb (Input.up i) (Input.down i) in
  let sx := ((if Input.left i then -1 else 0) + (if Input.right i then 1 else 0))%float in
  let sy := ((if Input.up i then -1 else 0) + (if Input.down i then 1 else 0))%float in
  d = (if ax && ay then (sx * Binary64.inv_sqrt2, sy * Binary64.inv_sqrt2)%float
       else (sx, sy)) /\
  Binary64.magnitude d
    = (if ax && ay then 0x1.fffffffffffffp-1 else if ax || ay then 1 else 0)%float /\
  Binary64.decode Binary64.inv_sqrt2 = Some (6369051672525772, -53)%Z /\
  (2 ^ 106 - 2 ^ 54 < 2 * 6369051672525772 ^ 2 < 2 ^ 106)%Z /\
  Binary64.vx (Binary64.tick_player dt p) = (fst d * Binary64.speed p)%float /\
  Binary64.vy (Binary64.tick_player dt p) = (snd d * Binary64.speed p)%float /\
  (forall vx0 vy0 : PrimFloat.float,
      let q := Binary64.mk (Binary64.x p) (Binary64.y p) vx0 vy0
                 (Binary64.speed p) (Binary64.input p) in
      Binary64.vx (Binary64.tick_player dt q) = Binary64.vx (Binary64.tick_player dt p) /\
      Binary64.vy (Binary64.tick_player dt q) = Binary64.vy (Binary64.tick_player dt p)).
Proof.
  destruct p as [x y vx vy speed [[] [] [] []]]; cbv zeta;
    cbn [Binary64.input Binary64.speed Binary64.x Binary64.y
         Input.up Input.down Input.left Input.right xorb andb orb];
    (split; [ vm_compute; reflexivity | ]);
    (split; [ vm_compute; reflexivity | ]);
    (split; [ vm_compute; reflexivity | ]);
    (split; [ lia | ]);
    (split; [ vm_compute; reflexivity | ]);
    (split; [ vm_compute; reflexivity | ]);
    intros vx0 vy0; split; vm_compute; reflexivity.
Qed.

(** C2 as stated fails for a diagonal: with up and left held the
    direction is (-k, -k), and its magnitude is below 1, computed in
    binary64 as well as without rounding. *)
Lemma diagonal_direction_is_shorter_than_1 :
  Binary64.direction up_left = (- Binary64.inv_sqrt2, - Binary64.inv_sqrt2)%float /\
  Binary64.magnitude (Binary64.direction up_left) = 0x1.fffffffffffffp-1%float /\
  (Binary64.magnitude (Binary64.direction up_left) <? 1)%float = true /\
  Binary64.decode Binary64.inv_sqrt2 = Some (6369051672525772, -53)%Z /\
  (2 * 6369051672525772 ^ 2 < 2 ^ 106)%Z.
Proof.
  split; [ vm_compute; reflexivity | ].
  split; [ vm_compute; reflexivity | ].
  split; [ vm_compute; reflexivity | ].
  split; [ vm_compute; reflexivity | lia ].
Qed.

(** ** The two embeddings of binary64 on one input *)











End Binary64_values.

(** ** Broadcasts *)

Lemma send_if_open_run (raw : JValue) (r : Ref) (w : World.t) :
  send_if_open raw r w =
    (Normal tt,
     if is_open (World.readyState w (Player.ws (World.objects w r)))
     then World.set_sent w ((Player.ws (World.objects w r), raw) :: World.sent w)
     else w).
Proof.
  unfold send_if_open, bind, object, read, ws_send.
  destruct (World.readyState w (Player.ws (World.objects w r))) eqn:E;
    cbn [is_open ret]; try reflexivity.
  rewrite E. reflexivity.
Qed.

(** The loop of [broadcast] only adds to [sent], one payload for each
    open transport, the latest first. *)
Lemma send_loop (raw : JValue) (l : list Ref) : forall (w : World.t),
  for_of l (send_if_open raw) w =
    (Normal tt,
     World.set_sent w
       (rev (map (fun c => (c, raw))
               (map (fun r => Player.ws (World.objects w r))
                  (filter (fun r => is_open (World.readyState w (Player.ws (World.objects w r)))) l)))
        ++ World.sent w)).
Proof.
  induction l as [| r rest IH]; intros w.
  - destruct w; reflexivity.
  - cbn [for_of]. unfold bind. rewrite send_if_open_run. rewrite IH.
    cbn [filter].
    destruct (is_open (World.readyState w (Player.ws (World.objects w r)))).
    + destruct w; cbn. rewrite <- app_assoc. reflexivity.
    + reflexivity.
Qed.

(** A broadcast throws when [players.values] is hidden and at no other
    point. *)
Lemma broadcast_run (obj : JValue) (w : World.t) :
  broadcast obj w =
    if has_key "values" (World.own w) then (Throw TypeError, w)
    else (Normal tt, World.set_sent w (deliveries obj w ++ World.sent w)).
Proof.
  unfold broadcast, players_values, method, bind, read.
  destruct (has_key "values" (World.own w)); [ reflexivity | ].
  apply (send_loop (JSON_stringify obj)).
Qed.

(** ** The connection handler, step by step *)

Lemma has_key_keyed_set {V : Type} (m k : string) (v : V) (l : list (string * V)) :
  has_key m (keyed_set k v l) = has_key m l || (k =? m)%string.
Proof.
  unfold has_key. induction l as [| [k' v'] rest IH]; cbn [keyed_set existsb fst].
  - rewrite orb_false_r. reflexivity.
  - destruct (k' =? k)%string eqn:E.
    + apply String.eqb_eq in E. subst k'. cbn [existsb fst].
      destruct (k =? m)%string; cbn; [ reflexivity | rewrite orb_false_r; reflexivity ].
    + cbn [existsb fst]. rewrite IH. rewrite orb_assoc. reflexivity.
Qed.

Lemma bind_normal {A B : Type} (m : JS A) (k : A -> JS B) (w w' : World.t) (a : A) :
  m w = (Normal a, w') -> bind m k w = k a w'.
Proof. intros H. unfold bind. rewrite H. reflexivity. Qed.

Lemma bind_throw {A B : Type} (m : JS A) (k : A -> JS B) (w w' : World.t) (err : Error) :
  m w = (Throw err, w') -> bind m k w = (Throw err, w').
Proof. intros H. unfold bind. rewrite H. reflexivity. Qed.

(** One step of a handler whose outcome is known. *)
Ltac step H := erewrite bind_normal by (apply H).
Ltac step_by tac := erewrite bind_normal by tac.

Lemma method_intact (m : string) (w : World.t) :
  has_key m (World.own w) = false -> method m w = (Normal tt, w).
Proof. intros H. unfold method. rewrite H. reflexivity. Qed.

Lemma method_hidden (m : string) (w : World.t) :
  has_key m (World.own w) = true -> method m w = (Throw TypeError, w).
Proof. intros H. unfold method. rewrite H. reflexivity. Qed.

Lemma players_set_run (k : string) (r : Ref) (w : World.t) :
  has_key "set" (World.own w) = false ->
  players_set k r w = (Normal tt, World.set_entries w (keyed_set k r (World.entries w))).
Proof. intros H. unfold players_set. step (method_intact "set" w H). reflexivity. Qed.

Lemma players_delete_run (k : string) (w : World.t) :
  has_key "delete" (World.own w) = false ->
  players_delete k w = (Normal tt, World.set_entries w (keyed_delete k (World.entries w))).
Proof. intros H. unfold players_delete. step (method_intact "delete" w H). reflexivity. Qed.

Lemma players_values_run (w : World.t) :
  has_key "values" (World.own w) = false ->
  players_values w = (Normal (map snd (World.entries w)), w).
Proof. intros H. unfold players_values. step (method_intact "values" w H). reflexivity. Qed.

Lemma broadcast_normal (obj : JValue) (w : World.t) :
  has_key "values" (World.own w) = false ->
  broadcast obj w = (Normal tt, after_broadcast obj w).
Proof. intros H. rewrite broadcast_run, H. reflexivity. Qed.

Lemma ws_send_run (c : Conn) (raw : JValue) (w : World.t) :
  is_open (World.readyState w c) || negb (World.send_throws w (World.readyState w c)) = true ->
  ws_send c raw w =
    (Normal tt,
     if is_open (World.readyState w c)
     then World.set_sent w ((c, raw) :: World.sent w) else w).
Proof.
  unfold ws_send. destruct (World.readyState w c); cbn [is_open orb]; intros H;
    try reflexivity; apply negb_true_iff in H; rewrite H; reflexivity.
Qed.

Lemma own_stage_assigned (ws : Conn) (address : string) (e : Entropy) (now : Z) (w : World.t) :
  has_key "values" (World.own (stage_assigned ws address e now w)) =
    has_key "values" (World.own w) || (welcome_id e =? "values")%string.
Proof.
  unfold stage_assigned. cbv zeta.
  destruct (welcome_id e =? "size")%string eqn:E.
  - apply String.eqb_eq in E. rewrite E. cbn. rewrite orb_false_r. reflexivity.
  - cbn [World.own World.set_own]. rewrite has_key_keyed_set. reflexivity.
Qed.

Lemma createPlayer_run (ws : Conn) (e : Entropy) (now : Z) (w : World.t) :
  createPlayer ws e now w = (Normal (World.allocated w), stage_created ws e now w).
Proof. reflexivity. Qed.

Lemma object_run (r : Ref) (w : World.t) : object r w = (Normal (World.objects w r), w).
Proof. reflexivity. Qed.

Lemma ret_run {A : Type} (a : A) (w : World.t) : ret a w = (Normal a, w).
Proof. reflexivity. Qed.

Lemma read_run {A : Type} (f : World.t -> A) (w : World.t) : read f w = (Normal (f w), w).
Proof. reflexivity. Qed.

Lemma console_log_run (line : LogLine) (w : World.t) :
  console_log line w = (Normal tt, World.set_console w (line :: World.console w)).
Proof. reflexivity. Qed.

Lemma created_object (ws : Conn) (e : Entropy) (now : Z) (w : World.t) :
  World.objects (stage_created ws e now w) (World.allocated w) = new_player ws e now.
Proof. cbn. rewrite Nat.eqb_refl. reflexivity. Qed.

Lemma players_assign_run (ws : Conn) (address : string) (e : Entropy) (now : Z) (w : World.t) :
  players_assign (welcome_id e) (shadow_record e (clean address)) (stage_inserted ws e now w)
  = (Normal tt, stage_assigned ws address e now w).
Proof.
  unfold players_assign, stage_assigned. cbv zeta.
  destruct (welcome_id e =? "size")%string; reflexivity.
Qed.

Lemma objects_stage_snapshot (ws : Conn) (address : string) (e : Entropy) (now : Z)
    (w : World.t) :
  World.objects (stage_snapshot ws address e now w) = World.objects (stage_created ws e now w).
Proof.
  unfold stage_snapshot, stage_welcomed, stage_assigned. cbv zeta.
  destruct (is_open (World.readyState w ws)), (welcome_id e =? "size")%string; reflexivity.
Qed.

Lemma own_stage_snapshot (ws : Conn) (address : string) (e : Entropy) (now : Z)
    (w : World.t) :
  World.own (stage_snapshot ws address e now w) = World.own (stage_assigned ws address e now w).
Proof.
  unfold stage_snapshot, stage_welcomed. cbv zeta.
  destruct (is_open (World.readyState w ws)); reflexivity.
Qed.

(** The connection handler runs to its end when [connects] holds, and
    only then. *)
Lemma on_connection_run (ws : Conn) (address : string) (e : Entropy) (now : Z) (w : World.t) :
  connects ws (Build_Request (Some address)) e w = true ->
  on_connection ws (Build_Request (Some address)) e now w =
    (Normal (World.allocated w), stage_joined ws address e now w).
Proof.
  unfold connects. intros H.
  repeat (apply andb_prop in H; destruct H as [H ?]).
  repeat match goal with h : negb _ = true |- _ => apply negb_true_iff in h end.
  unfold on_connection.
  step createPlayer_run.
  step object_run. rewrite created_object.
  step_by ltac:(apply players_set_run; exact H).
  cbn [remoteAddress].
  step (@ret_run string).
  step players_assign_run.
  assert (Hs : ws_send ws (JSON_stringify (welcome_message (welcome_id e) (clean address)))
                 (stage_assigned ws address e now w)
               = (Normal tt, stage_welcomed ws address e now w)).
  { rewrite ws_send_run.
    - unfold stage_welcomed. cbv zeta.
      replace (World.readyState (stage_assigned ws address e now w))
        with (World.readyState w); [ reflexivity | ].
      unfold stage_assigned. cbv zeta. destruct (welcome_id e =? "size")%string; reflexivity.
    - replace (World.readyState (stage_assigned ws address e now w))
        with (World.readyState w);
      [ replace (World.send_throws (stage_assigned ws address e now w))
          with (World.send_throws w); [ exact H2 | ] | ];
      unfold stage_assigned; cbv zeta; destruct (welcome_id e =? "size")%string; reflexivity. }
  step Hs.
  step (@read_run (list (string * Shadow.t))).
  assert (Hv : has_key "values" (World.own (stage_welcomed ws address e now w)) = false).
  { replace (World.own (stage_welcomed ws address e now w))
      with (World.own (stage_assigned ws address e now w)).
    - rewrite own_stage_assigned, H1, H0. reflexivity.
    - unfold stage_welcomed. cbv zeta. destruct (is_open (World.readyState w ws)); reflexivity. }
  step_by ltac:(apply broadcast_normal; exact Hv).
  fold (stage_snapshot ws address e now w).
  step object_run. rewrite objects_stage_snapshot, created_object.
  step console_log_run.
  step object_run. cbn [World.objects World.set_console].
  rewrite objects_stage_snapshot, created_object.
  step_by ltac:(apply broadcast_normal; cbn [World.own World.set_console];
                rewrite own_stage_snapshot, own_stage_assigned, H1, H0; reflexivity).
  reflexivity.
Qed.

Lemma ws_send_throws (c : Conn) (raw : JValue) (w : World.t) :
  is_open (World.readyState w c) || negb (World.send_throws w (World.readyState w c)) = false ->
  ws_send c raw w = (Throw SendError, w).
Proof.
  unfold ws_send. destruct (World.readyState w c); cbn [is_open orb]; intros H;
    try discriminate; apply negb_false_iff in H; rewrite H; reflexivity.
Qed.

Lemma frame_stage_assigned (ws : Conn) (address : string) (e : Entropy) (now : Z) (w : World.t) :
  World.readyState (stage_assigned ws address e now w) = World.readyState w /\
  World.send_throws (stage_assigned ws address e now w) = World.send_throws w.
Proof.
  unfold stage_assigned. cbv zeta. destruct (welcome_id e =? "size")%string; split; reflexivity.
Qed.

Lemma on_connection_normal (ws : Conn) (req : Request) (e : Entropy) (now : Z)
    (w w' : World.t) (player : Ref) :
  on_connection ws req e now w = (Normal player, w') ->
  connects ws req e w = true.
Proof.
  intros Hrun. destruct (connects ws req e w) eqn:Hc; [ reflexivity | exfalso ].
  revert Hrun. unfold on_connection.
  step createPlayer_run. step object_run. rewrite created_object.
  unfold connects in Hc.
  destruct (has_key "set" (World.own w)) eqn:Hset.
  { erewrite bind_throw; [ discriminate | ].
    unfold players_set. erewrite bind_throw; [ reflexivity | ].
    apply method_hidden. exact Hset. }
  step_by ltac:(apply players_set_run; exact Hset).
  destruct req as [[address |]]; cbn [remoteAddress] in *.
  2:{ erewrite bind_throw; [ discriminate | reflexivity ]. }
  step (@ret_run string). step players_assign_run.
  destruct (frame_stage_assigned ws address e now w) as [Frs Fst].
  destruct (is_open (World.readyState w ws) || negb (World.send_throws w (World.readyState w ws)))
    eqn:Hsend.
  2:{ erewrite bind_throw; [ discriminate | ].
      apply ws_send_throws. rewrite Frs, Fst. exact Hsend. }
  assert (Hs : ws_send ws (JSON_stringify (welcome_message (welcome_id e) (clean address)))
                 (stage_assigned ws address e now w)
               = (Normal tt, stage_welcomed ws address e now w)).
  { rewrite ws_send_run.
    - unfold stage_welcomed. cbv zeta. rewrite Frs. reflexivity.
    - rewrite Frs, Fst. exact Hsend. }
  step Hs. step (@read_run (list (string * Shadow.t))).
  erewrite bind_throw; [ discriminate | ].
  rewrite broadcast_run.
  replace (World.own (stage_welcomed ws address e now w))
    with (World.own (stage_assigned ws address e now w)).
  - rewrite own_stage_assigned.
    cbn [negb andb] in Hc.
    destruct (has_key "values" (World.own w)); cbn [orb]; [ reflexivity | ].
    cbn [negb andb] in Hc. apply negb_false_iff in Hc. rewrite Hc. reflexivity.
  - unfold stage_welcomed. cbv zeta. destruct (is_open (World.readyState w ws)); reflexivity.
Qed.

(** ** Identifiers *)

Lemma length_toString_hex (buf : list byte) :
  String.length (toString_hex buf) = (2 * List.length buf)%nat.
Proof.
  induction buf as [| b rest IH]; cbn [toString_hex String.length List.length].
  - reflexivity.
  - rewrite IH. lia.
Qed.

Lemma length_crypto_randomBytes (n : nat) (source : nat -> byte) :
  List.length (crypto_randomBytes n source) = n.
Proof. unfold crypto_randomBytes. rewrite length_map, length_seq. reflexivity. Qed.

Lemma length_substring (s : string) : forall (n m : nat),
  (String.length (substring n m s) <= m)%nat.
Proof.
  induction s as [| c rest IH]; intros n m.
  - destruct n, m; cbn; lia.
  - destruct n as [| n'].
    + destruct m as [| m']; cbn [substring String.length]; [ lia | ].
      specialize (IH 0%nat m'). lia.
    + cbn [substring]. apply IH.
Qed.

Lemma length_welcome_id (e : Entropy) : (String.length (welcome_id e) <= 7)%nat.
Proof. unfold welcome_id, slice. apply (length_substring (random_text e) 2 7). Qed.

Lemma length_player_id (ws : Conn) (e : Entropy) (now : Z) :
  String.length (Player.id (new_player ws e now)) = 16%nat.
Proof.
  unfold new_player. cbn [Player.id].
  rewrite length_toString_hex, length_crypto_randomBytes. reflexivity.
Qed.

(** Sixteen characters against seven at most. *)
Lemma welcome_id_differs (ws : Conn) (e : Entropy) (now : Z) :
  welcome_id e <> Player.id (new_player ws e now).
Proof.
  intros H. pose proof (length_welcome_id e) as L.
  rewrite H, length_player_id in L. lia.
Qed.

(** ** What a handler delivers *)

Lemma delivered_new {A : Type} (m : JS A) (w : World.t) (new : list (Conn * JValue)) :
  World.sent (exec m w) = (new ++ World.sent w)%list -> delivered m w = new.
Proof.
  intros H. unfold delivered. cbv zeta. rewrite H, length_app.
  replace (List.length new + List.length (World.sent w) - List.length (World.sent w))%nat
    with (List.length new + 0)%nat by lia.
  rewrite firstn_app_2. cbn [firstn]. apply app_nil_r.
Qed.

Lemma keyed_set_In {V : Type} (k : string) (v : V) (l : list (string * V)) :
  In (k, v) (keyed_set k v l).
Proof.
  induction l as [| [k' v'] rest IH]; cbn [keyed_set].
  - left. reflexivity.
  - destruct (k' =? k)%string; [ left; reflexivity | right; exact IH ].
Qed.

(** What a connection handled to its end leaves behind. *)
Lemma frame_stage_joined (ws : Conn) (address : string) (e : Entropy) (now : Z) (w : World.t) :
  let w' := stage_joined ws address e now w in
  World.objects w' = World.objects (stage_created ws e now w) /\
  World.entries w' = keyed_set (Player.id (new_player ws e now)) (World.allocated w) (World.entries w) /\
  World.readyState w' = World.readyState w /\
  World.own w' = World.own (stage_assigned ws address e now w) /\
  World.sent w' =
    (deliveries (player_join_message (new_player ws e now)) w'
     ++ deliveries (join_snapshot_message
                      (map join_snapshot_item
                         (Object_entries (World.own (stage_assigned ws address e now w))))) w'
     ++ welcome_delivery ws address e w ++ World.sent w)%list.
Proof.
  cbv zeta.
  unfold stage_joined, stage_snapshot, stage_welcomed, stage_assigned, welcome_delivery.
  cbv zeta.
  destruct (is_open (World.readyState w ws)), (welcome_id e =? "size")%string;
    repeat split; try reflexivity;
    cbn [World.sent World.set_sent World.set_console after_broadcast];
    rewrite <- !app_assoc; reflexivity.
Qed.

Lemma of_type_deliveries (t t' : string) (obj : JValue) (w : World.t) :
  message_type (JSON_stringify obj) = Some t' ->
  of_type t (deliveries obj w) = if (t' =? t)%string then deliveries obj w else [].
Proof.
  intros H. unfold of_type, deliveries.
  induction (recipients w) as [| c rest IH]; cbn [map rev].
  - cbn. destruct (t' =? t)%string; reflexivity.
  - rewrite filter_app, IH. cbn [filter]. unfold has_type. cbn [snd]. rewrite H.
    destruct (t' =? t)%string; [ reflexivity | rewrite app_nil_r; reflexivity ].
Qed.

Lemma of_type_same (t : string) (obj : JValue) (w : World.t) :
  message_type (JSON_stringify obj) = Some t ->
  of_type t (deliveries obj w) = deliveries obj w.
Proof. intros H. rewrite (of_type_deliveries t t obj w H), String.eqb_refl. reflexivity. Qed.

Lemma of_type_other (t t' : string) (obj : JValue) (w : World.t) :
  message_type (JSON_stringify obj) = Some t' -> (t' =? t)%string = false ->
  of_type t (deliveries obj w) = [].
Proof. intros H E. rewrite (of_type_deliveries t t' obj w H), E. reflexivity. Qed.

Lemma of_type_app (t : string) (a b : list (Conn * JValue)) :
  of_type t (a ++ b) = (of_type t a ++ of_type t b)%list.
Proof. apply filter_app. Qed.

Lemma recipients_frame (w w' : World.t) :
  World.objects w' = World.objects w -> World.entries w' = World.entries w ->
  World.readyState w' = World.readyState w -> recipients w' = recipients w.
Proof. intros Ho He Hr. unfold recipients. rewrite Ho, He, Hr. reflexivity. Qed.

(** C3, where the code differs from the claim: a connection handled to its
    end registers its player under [player.id], sends to its own transport
    one welcome, which carries the identifier of line 56, and announces
    [player.id] in [player_join]; the identifier of the welcome is never
    [player.id]. *)
Theorem welcome_id_is_not_the_registry_id
    (ws : Conn) (address : string) (e : Entropy) (now : Z) (w : World.t) :
  connects ws (Build_Request (Some address)) e w = true ->
  World.readyState w ws = OPEN ->
  let run := on_connection ws (Build_Request (Some address)) e now in
  let w' := exec run w in
  exists player : Ref,
    fst (run w) = Normal player /\
    In (Player.id (World.objects w' player), player) (World.entries w') /\
    of_type "welcome" (delivered run w)
      = [(ws, welcome_message (welcome_id e) (clean address))] /\
    of_type "player_join" (delivered run w)
      = deliveries (player_join_message (World.objects w' player)) w' /\
    welcome_id e <> Player.id (World.objects w' player).
Proof.
  intros Hc Hopen run w'. exists (World.allocated w).
  subst run w'. unfold exec. rewrite (on_connection_run ws address e now w Hc).
  cbn [fst snd].
  destruct (frame_stage_joined ws address e now w) as (Ho & He & Hr & Hown & Hs).
  rewrite Ho, created_object.
  split; [ reflexivity | ]. split; [ rewrite He; apply keyed_set_In | ].
  assert (Hd : delivered (on_connection ws {| remoteAddress := Some address |} e now) w
               = (deliveries (player_join_message (new_player ws e now))
                    (stage_joined ws address e now w)
                  ++ deliveries (join_snapshot_message
                       (map join_snapshot_item
                          (Object_entries (World.own (stage_assigned ws address e now w)))))
                       (stage_joined ws address e now w)
                  ++ welcome_delivery ws address e w)%list).
  { apply delivered_new. unfold exec. rewrite (on_connection_run ws address e now w Hc).
    cbn [snd]. rewrite Hs at 1. rewrite <- !app_assoc. reflexivity. }
  rewrite Hd. rewrite !of_type_app.
  unfold welcome_delivery. rewrite Hopen. cbn [is_open].
  split; [ | split ].
  - rewrite (of_type_other "welcome" "player_join") by reflexivity.
    rewrite (of_type_other "welcome" "snapshot") by reflexivity.
    reflexivity.
  - rewrite (of_type_same "player_join") by reflexivity.
    rewrite (of_type_other "player_join" "snapshot") by reflexivity.
    apply app_nil_r.
  - apply welcome_id_differs.
Qed.

Lemma is_open_OPEN (state : ReadyState) : is_open state = true <-> state = OPEN.
Proof. destruct state; cbn; split; intros H; try reflexivity; discriminate. Qed.

(** The recipients of a broadcast are the open transports of the
    registry. *)
Lemma In_recipients (w : World.t) (c : Conn) :
  In c (recipients w) <->
  exists (k : string) (r : Ref),
    In (k, r) (World.entries w) /\ Player.ws (World.objects w r) = c /\
    World.readyState w c = OPEN.
Proof.
  unfold recipients. rewrite in_map_iff. split.
  - intros (r & Hws & Hin). apply filter_In in Hin. destruct Hin as [Hin Hopen].
    apply in_map_iff in Hin. destruct Hin as ([k r'] & Hr & Hin). cbn in Hr. subst r'.
    exists k, r. rewrite <- Hws. apply is_open_OPEN in Hopen. auto.
  - intros (k & r & Hin & Hws & Hopen). exists r. split; [ exact Hws | ].
    apply filter_In. split.
    + apply in_map_iff. exists (k, r). auto.
    + rewrite Hws. apply is_open_OPEN. exact Hopen.
Qed.

(** C5, amended: a connection handled to its end hands [player_join] once
    to every open transport of the registry and to no other; the transport
    of the new connection is one of them when it is open. *)
Theorem player_join_goes_to_every_open_connection
    (ws : Conn) (address : string) (e : Entropy) (now : Z) (w : World.t) :
  connects ws (Build_Request (Some address)) e w = true ->
  let run := on_connection ws (Build_Request (Some address)) e now in
  let w' := exec run w in
  exists player : Ref,
    fst (run w) = Normal player /\
    Player.ws (World.objects w' player) = ws /\
    of_type "player_join" (delivered run w)
      = rev (map (fun c => (c, player_join_message (World.objects w' player)))
               (recipients w')) /\
    (forall c : Conn,
        In c (recipients w') <->
        exists (k : string) (r : Ref),
          In (k, r) (World.entries w') /\ Player.ws (World.objects w' r) = c /\
          World.readyState w' c = OPEN) /\
    (World.readyState w ws = OPEN -> In ws (recipients w')).
Proof.
  intros Hc run w'. exists (World.allocated w).
  subst run w'. unfold exec. rewrite (on_connection_run ws address e now w Hc).
  cbn [fst snd].
  destruct (frame_stage_joined ws address e now w) as (Ho & He & Hr & Hown & Hs).
  split; [ reflexivity | ].
  split; [ rewrite Ho, created_object; reflexivity | ].
  split; [ | split ].
  - assert (Hd : delivered (on_connection ws {| remoteAddress := Some address |} e now) w
               = (deliveries (player_join_message (new_player ws e now))
                    (stage_joined ws address e now w)
                  ++ deliveries (join_snapshot_message
                       (map join_snapshot_item
                          (Object_entries (World.own (stage_assigned ws address e now w)))))
                       (stage_joined ws address e now w)
                  ++ welcome_delivery ws address e w)%list).
    { apply delivered_new. unfold exec. rewrite (on_connection_run ws address e now w Hc).
      cbn [snd]. rewrite Hs at 1. rewrite <- !app_assoc. reflexivity. }
    rewrite Hd, !of_type_app.
    rewrite (of_type_same "player_join") by reflexivity.
    rewrite (of_type_other "player_join" "snapshot") by reflexivity.
    rewrite Ho, created_object.
    unfold welcome_delivery. destruct (is_open (World.readyState w ws)); apply app_nil_r.
  - intros c. apply In_recipients.
  - intros Hopen. apply In_recipients.
    exists (Player.id (new_player ws e now)), (World.allocated w).
    rewrite He, Ho, created_object, Hr.
    split; [ apply keyed_set_In | ]. split; [ reflexivity | exact Hopen ].
Qed.

(** C5 as stated fails at the first connection to a server: the new
    connection, on transport 1, is handed the [player_join] of its own
    player. *)
Lemma player_join_reaches_the_new_connection :
  fst (on_connection 1 request_A entropy_A 1000 empty_world) = Normal 0%nat /\
  Player.ws (World.objects world_A 0%nat) = 1%nat /\
  In (1%nat, player_join_message (World.objects world_A 0%nat))
     (delivered (on_connection 1 request_A entropy_A 1000) empty_world).
Proof.
  split; [ vm_compute; reflexivity | ]. split; [ vm_compute; reflexivity | ].
  vm_compute. left. reflexivity.
Qed.

(** The first connection to a server, with its transport open. *)
Lemma player_join_goes_to_every_open_connection_witness :
  exists player : Ref,
    fst (on_connection 1 request_A entropy_A 1000 empty_world) = Normal player /\
    In 1%nat (recipients world_A).
Proof.
  destruct (player_join_goes_to_every_open_connection 1%nat "::ffff:10.0.0.7" entropy_A 1000%Z
              empty_world eq_refl) as (player & Hrun & _ & _ & _ & Hself).
  exists player. split; [ exact Hrun | ]. apply Hself. reflexivity.
Defined.

(** The first connection to a server: welcomed as "k3j9x2a", registered
    as "0a0a0a0a0a0a0a0a". *)
Lemma welcome_id_is_not_the_registry_id_witness :
  exists player : Ref,
    fst (on_connection 1 request_A entropy_A 1000 empty_world) = Normal player /\
    welcome_id entropy_A <> Player.id (World.objects world_A player).
Proof.
  destruct (welcome_id_is_not_the_registry_id 1%nat "::ffff:10.0.0.7" entropy_A 1000%Z
              empty_world eq_refl eq_refl) as (player & Hrun & _ & _ & _ & Hid).
  exists player. split; [ exact Hrun | exact Hid ].
Defined.

(** ** The snapshot of the connection handler *)

Lemma JSON_stringify_join_snapshot (l : list (string * Shadow.t)) :
  JSON_stringify (join_snapshot_message (map join_snapshot_item l))
  = join_snapshot_message (map join_snapshot_item l).
Proof.
  unfold join_snapshot_message. cbn [JSON_stringify]. rewrite map_map.
  do 5 f_equal. apply map_ext. intros [k p]. reflexivity.
Qed.

(** X23: whoever connects, the snapshot that the connection handler
    broadcasts is built from the records that line 58 stored on [players],
    of this connection and of all earlier ones: it has no [ts], each item
    has the key of a record as its [id] and an [ip], and every open
    transport of the registry gets it once. *)
Theorem join_snapshot_lists_the_own_records
    (ws : Conn) (address : string) (e : Entropy) (now : Z) (w : World.t) :
  connects ws (Build_Request (Some address)) e w = true ->
  let run := on_connection ws (Build_Request (Some address)) e now in
  let w' := exec run w in
  let payload := join_snapshot_message (map join_snapshot_item (Object_entries (World.own w'))) in
  of_type "snapshot" (delivered run w) = rev (map (fun c => (c, payload)) (recipients w')) /\
  keys payload = ["type"; "players"] /\
  snapshot_ids payload = map (fun r => JStr (fst r)) (Object_entries (World.own w')) /\
  snapshot_item_keys payload
    = map (fun _ => ["id"; "x"; "y"; "vx"; "vy"; "color"; "ip"]) (Object_entries (World.own w')) /\
  (welcome_id e <> "size" -> has_key (welcome_id e) (World.own w') = true) /\
  (forall k : string, has_key k (World.own w) = true -> has_key k (World.own w') = true).
Proof.
  intros Hc run w' payload. subst run w' payload. unfold exec.
  rewrite (on_connection_run ws address e now w Hc). cbn [snd].
  destruct (frame_stage_joined ws address e now w) as (Ho & He & Hr & Hown & Hs).
  rewrite Hown.
  split; [ | split; [ reflexivity | split; [ | split; [ | split ] ] ] ].
  - assert (Hd : delivered (on_connection ws {| remoteAddress := Some address |} e now) w
               = (deliveries (player_join_message (new_player ws e now))
                    (stage_joined ws address e now w)
                  ++ deliveries (join_snapshot_message
                       (map join_snapshot_item
                          (Object_entries (World.own (stage_assigned ws address e now w)))))
                       (stage_joined ws address e now w)
                  ++ welcome_delivery ws address e w)%list).
    { apply delivered_new. unfold exec. rewrite (on_connection_run ws address e now w Hc).
      cbn [snd]. rewrite Hs at 1. rewrite <- !app_assoc. reflexivity. }
    rewrite Hd, !of_type_app.
    rewrite (of_type_other "snapshot" "player_join") by reflexivity.
    rewrite (of_type_same "snapshot") by reflexivity.
    cbn [app]. unfold deliveries at 1. rewrite JSON_stringify_join_snapshot.
    unfold welcome_delivery. destruct (is_open (World.readyState w ws)); apply app_nil_r.
  - unfold snapshot_ids, join_snapshot_message.
    cbn [own_property String.eqb Ascii.eqb Bool.eqb]. rewrite map_map.
    apply map_ext. intros [k p]. reflexivity.
  - unfold snapshot_item_keys, join_snapshot_message.
    cbn [own_property String.eqb Ascii.eqb Bool.eqb]. rewrite map_map.
    apply map_ext. intros [k p]. reflexivity.
  - intros Hsize. unfold stage_assigned. cbv zeta.
    apply String.eqb_neq in Hsize. rewrite Hsize. cbn [World.own World.set_own].
    rewrite has_key_keyed_set, String.eqb_refl. apply orb_true_r.
  - intros k Hk. unfold stage_assigned. cbv zeta.
    destruct (welcome_id e =? "size")%string; [ exact Hk | ].
    cbn [World.own World.set_own]. rewrite has_key_keyed_set. cbn [World.own] in *.
    change (World.own (stage_inserted ws e now w)) with (World.own w).
    rewrite Hk. reflexivity.
Qed.

(** ** Received messages *)

Lemma get_prop_run (v : JValue) (k : Key) (w : World.t) :
  get_prop v k w =
    if absent v then (Throw TypeError, w) else (Normal (property v k), w).
Proof. destruct v; reflexivity. Qed.

Lemma input_flag_run (msg : JValue) (k : Key) (w : World.t) :
  absent msg = false ->
  input_flag msg k w =
    if absent (property msg k_input) then (Throw TypeError, w)
    else (Normal (truthy (property (property msg k_input) k)), w).
Proof.
  intros Hm. unfold input_flag, bind. rewrite get_prop_run, Hm, get_prop_run.
  destruct (absent (property msg k_input)); reflexivity.
Qed.

(** What [handleMessage] does, case by case. *)
Lemma handleMessage_run (player : Ref) (msg : JValue) (now : Z) (w : World.t) :
  handleMessage player msg now w =
    let w1 := touched player now w in
    if absent msg then (Throw TypeError, w1)
    else match property msg k_type with
         | JStr s =>
             if (s =? "input")%string then
               if absent (property msg k_input) then (Throw TypeError, w1)
               else (Normal tt,
                     exec (update_object player
                             (fun p => Player.set_input p (flags (property msg k_input)))) w1)
             else if (s =? "ping")%string then
               ws_send (Player.ws (World.objects w1 player))
                 (JSON_stringify (pong_message (property msg k_ts))) w1
             else (Normal tt, w1)
         | _ => (Normal tt, w1)
         end.
Proof.
  cbv zeta. unfold handleMessage.
  erewrite bind_normal by (unfold update_object, write, touched, exec; reflexivity).
  cbn [snd].
  change (snd (update_object player (fun p => Player.set_lastSeen p now) w))
    with (touched player now w).
  unfold bind at 1. rewrite get_prop_run.
  destruct (absent msg) eqn:Hm; [ reflexivity | ].
  destruct (property msg k_type) as [| | b | r | s | items | fields ]; try reflexivity.
  destruct (s =? "input")%string.
  - unfold bind.
    destruct (absent (property msg k_input)) eqn:Hi;
      repeat (rewrite input_flag_run by exact Hm; rewrite Hi; cbv beta iota);
      reflexivity.
  - destruct (s =? "ping")%string; [ | reflexivity ].
    unfold bind. rewrite object_run, get_prop_run, Hm. reflexivity.
Qed.

Lemma on_message_run (player : Ref) (raw : RawData) (now : Z) (w : World.t) :
  on_message player raw now w =
    match raw with
    | Unparseable => console_log (Invalid_message SyntaxError) w
    | JSONText msg =>
        match handleMessage player msg now w with
        | (Normal a, w1) => (Normal a, w1)
        | (Throw err, w1) => console_log (Invalid_message err) w1
        end
    end.
Proof. destruct raw; reflexivity. Qed.

Lemma objects_touched (player : Ref) (now : Z) (w : World.t) (r : Ref) :
  Player.set_lastSeen (World.objects (touched player now w) r) 0
  = Player.set_lastSeen (World.objects w r) 0.
Proof.
  unfold touched, exec, update_object, write. cbn.
  destruct (Nat.eqb r player) eqn:E; [ | reflexivity ].
  apply Nat.eqb_eq in E. subst r. reflexivity.
Qed.

Lemma frame_touched (player : Ref) (now : Z) (w : World.t) :
  World.readyState (touched player now w) = World.readyState w /\
  World.send_throws (touched player now w) = World.send_throws w /\
  World.entries (touched player now w) = World.entries w /\
  World.own (touched player now w) = World.own w /\
  World.sent (touched player now w) = World.sent w /\
  World.console (touched player now w) = World.console w.
Proof. repeat split. Qed.

(** C6, amended: an [input] message whose [input] is neither [undefined]
    nor [null] replaces the stored input by the coercion of the four
    properties of [input], whatever was stored, and a missing property
    gives [false]; when [input] is absent the handler raises a [TypeError],
    logs it, and the stored input stays as it was. *)
Theorem input_message_overwrites_input
    (player : Ref) (fields : list (string * JValue)) (now : Z) (w : World.t) :
  own_property "type" fields = JStr "input" ->
  let i := own_property "input" fields in
  let w' := exec (on_message player (JSONText (JObj fields)) now) w in
  (absent i = false ->
     Player.input (World.objects w' player) = flags i /\
     World.console w' = World.console w) /\
  (absent i = true ->
     Player.input (World.objects w' player) = Player.input (World.objects w player) /\
     World.console w' = Invalid_message TypeError :: World.console w) /\
  (forall k : Key, property i k = JUndefined -> truthy (property i k) = false).
Proof.
  intros Ht i w'. subst w'. unfold exec.
  rewrite on_message_run, handleMessage_run. cbv zeta.
  cbn [absent property key_name]. rewrite Ht. cbn [String.eqb Ascii.eqb Bool.eqb].
  fold i. split; [ | split ].
  - intros Hi. rewrite Hi. cbn [snd]. unfold exec, update_object, write. cbn.
    rewrite Nat.eqb_refl. split; reflexivity.
  - intros Hi. rewrite Hi. cbn. rewrite Nat.eqb_refl. split; reflexivity.
  - intros k Hk. rewrite Hk. reflexivity.
Qed.

(** [{"type": "input", "input": {"right": true}}] sent to a player at
    rest. *)
Lemma input_message_overwrites_input_witness :
  Player.input (World.objects (exec (on_message 0 hold_right 1100) world_A) 0%nat)
  = right_only.
Proof.
  destruct (input_message_overwrites_input 0%nat
              [("type", JStr "input"); ("input", JObj [("right", JBool true)])]
              1100%Z world_A eq_refl) as (Hset & _ & _).
  destruct (Hset eq_refl) as [Hi _]. exact Hi.
Defined.

(** C6 as stated fails for [{"type": "input"}]: sent to a player that holds
    the right key, it makes [handleMessage] throw a [TypeError], which is
    logged, and the stored input stays "right", not all false. *)
Lemma input_message_without_input_object_throws :
  Player.input (World.objects world_A_right 0%nat) = right_only /\
  fst (handleMessage 0 (JObj [("type", JStr "input")]) 1200 world_A_right) = Throw TypeError /\
  Player.input (World.objects (exec (on_message 0 bare_input 1200) world_A_right) 0%nat)
    = right_only /\
  right_only <> idle /\
  World.console (exec (on_message 0 bare_input 1200) world_A_right)
    = Invalid_message TypeError :: World.console world_A_right.
Proof.
  split; [ vm_compute; reflexivity | ]. split; [ vm_compute; reflexivity | ].
  split; [ vm_compute; reflexivity | ].
  split; [ discriminate | vm_compute; reflexivity ].
Qed.

(** ** Isolation of failures *)

Lemma ws_send_frame (c : Conn) (raw : JValue) (w : World.t) :
  let w' := snd (ws_send c raw w) in
  World.readyState w' = World.readyState w /\
  World.entries w' = World.entries w /\
  World.own w' = World.own w /\
  World.console w' = World.console w /\
  World.objects w' = World.objects w.
Proof.
  cbv zeta. unfold ws_send.
  destruct (World.readyState w c); try (destruct (World.send_throws w _));
    repeat split.
Qed.

(** Handling a message touches neither the transports, the registry, the
    properties of [players] nor the console. *)
Lemma handleMessage_frame (player : Ref) (msg : JValue) (now : Z) (w : World.t) :
  let w' := snd (handleMessage player msg now w) in
  World.readyState w' = World.readyState w /\
  World.entries w' = World.entries w /\
  World.own w' = World.own w /\
  World.console w' = World.console w.
Proof.
  cbv zeta. rewrite handleMessage_run. cbv zeta.
  destruct (absent msg); [ repeat split | ].
  destruct (property msg k_type) as [| | b | r | s | items | fields ];
    try solve [ repeat split ].
  destruct (s =? "input")%string.
  - destruct (absent (property msg k_input)); repeat split.
  - destruct (s =? "ping")%string; [ | repeat split ].
    destruct (ws_send_frame (Player.ws (World.objects (touched player now w) player))
                (JSON_stringify (pong_message (property msg k_ts)))
                (touched player now w)) as (H1 & H2 & H3 & H4 & _).
    rewrite H1, H2, H3, H4. repeat split.
Qed.

Lemma on_message_completes (player : Ref) (raw : RawData) (now : Z) (w : World.t) :
  fst (on_message player raw now w) = Normal tt.
Proof.
  rewrite on_message_run. destruct raw as [| msg]; [ reflexivity | ].
  destruct (handleMessage player msg now w) as [[[] | err] w1]; reflexivity.
Qed.

Lemma on_message_frame (player : Ref) (raw : RawData) (now : Z) (w : World.t) :
  let w' := exec (on_message player raw now) w in
  World.readyState w' = World.readyState w /\
  World.entries w' = World.entries w /\
  World.own w' = World.own w.
Proof.
  cbv zeta. unfold exec. rewrite on_message_run.
  destruct raw as [| msg]; [ repeat split | ].
  pose proof (handleMessage_frame player msg now w) as F. cbv zeta in F.
  destruct (handleMessage player msg now w) as [[[] | err] w1]; cbn [snd] in *;
    destruct F as (F1 & F2 & F3 & _); repeat split; assumption.
Qed.

(** A rejected message is logged; it sends nothing and moves nobody. *)
Lemma rejected_dropped (player : Ref) (raw : RawData) (now : Z) (w : World.t) :
  rejected raw = true ->
  let w' := exec (on_message player raw now) w in
  (exists err : Error, World.console w' = Invalid_message err :: World.console w) /\
  World.sent w' = World.sent w /\
  (forall r : Ref,
      Player.set_lastSeen (World.objects w' r) 0 = Player.set_lastSeen (World.objects w r) 0).
Proof.
  intros Hm. cbv zeta. unfold exec. rewrite on_message_run.
  destruct raw as [| msg].
  - split; [ exists SyntaxError; reflexivity | ]. split; [ reflexivity | ].
    intros r. reflexivity.
  - rewrite handleMessage_run. cbv zeta. cbn [rejected] in Hm.
    destruct (absent msg) eqn:Ha.
    + split; [ exists TypeError; reflexivity | ]. split; [ reflexivity | ].
      intros r. apply objects_touched.
    + cbn [orb] in Hm. destruct msg as [| | b | r | s | items | fields ]; try discriminate.
      cbn [message_type] in Hm. cbn [property key_name] in *.
      destruct (own_property "type" fields) as [| | b | r | s | items | fields' ];
        try discriminate.
      apply andb_prop in Hm. destruct Hm as [Hs Hi]. rewrite Hs. cbn [property key_name] in Hi.
      rewrite Hi.
      split; [ exists TypeError; reflexivity | ]. split; [ reflexivity | ].
      intros r. apply (objects_touched player now w r).
Qed.

(** Any other message is handled: it is logged only when it is a [ping]
    and the transport throws at the [pong], and but for a [ping] nothing
    is sent. *)
Lemma handled_not_logged (player : Ref) (msg : JValue) (now : Z) (w : World.t) :
  rejected (JSONText msg) = false ->
  let w' := exec (on_message player (JSONText msg) now) w in
  (World.console w' = World.console w
   \/ (message_type msg = Some "ping"
       /\ World.console w' = Invalid_message SendError :: World.console w)) /\
  (message_type msg <> Some "ping" ->
   World.console w' = World.console w /\ World.sent w' = World.sent w).
Proof.
  intros Hm. cbv zeta. unfold exec. rewrite on_message_run, handleMessage_run. cbv zeta.
  cbn [rejected] in Hm. apply orb_false_iff in Hm. destruct Hm as [Ha Hm]. rewrite Ha.
  destruct msg as [| | b | r | s | items | fields ];
    try (split; [ left; reflexivity | intros _; split; reflexivity ]).
  cbn [message_type property key_name] in *.
  destruct (own_property "type" fields) as [| | b | r | s | items | fields' ];
    try (split; [ left; reflexivity | intros _; split; reflexivity ]).
  destruct (s =? "input")%string eqn:Hs.
  - cbn [andb] in Hm. cbn [property key_name] in Hm. rewrite Hm.
    split; [ left; reflexivity | intros _; split; reflexivity ].
  - destruct (s =? "ping")%string eqn:Hp.
    + apply String.eqb_eq in Hp. subst s.
      unfold ws_send.
      destruct (World.readyState (touched player now w) _);
        try (destruct (World.send_throws (touched player now w) _));
        (split; [ first [ left; reflexivity | right; split; reflexivity ]
                | intros H; exfalso; apply H; reflexivity ]).
    + split; [ left; reflexivity | intros _; split; reflexivity ].
Qed.

Lemma In_deliveries (obj : JValue) (w : World.t) (c : Conn) (payload : JValue) :
  In (c, payload) (deliveries obj w) <->
  In c (recipients w) /\ payload = JSON_stringify obj.
Proof.
  unfold deliveries. rewrite <- in_rev, in_map_iff. split.
  - intros (c' & E & Hin). inversion E; subst. auto.
  - intros [Hin E]. subst. exists c. auto.
Qed.

(** C8, amended: whatever is received, the message handler returns
    without throwing and leaves the transports, the registry and the
    properties of [players] as they were.  The data on which the body of
    the [try] throws (a text that does not parse, [null], an [input]
    message whose [input] is absent) are logged, nothing is sent for them
    and no player changes but in [lastSeen].  Every other message is
    handled, also when it misses a required field: it is not logged,
    unless it is a [ping] whose [pong] the transport refuses, and unless
    it is a [ping] nothing is sent for it.  A broadcast hands the same
    payload once to each open transport of the registry, nothing to a
    transport that is not open, and keeps nothing for later. *)
Theorem failures_are_isolated :
  (forall (player : Ref) (raw : RawData) (now : Z) (w : World.t),
      let w' := exec (on_message player raw now) w in
      fst (on_message player raw now w) = Normal tt /\
      World.readyState w' = World.readyState w /\
      World.entries w' = World.entries w /\
      World.own w' = World.own w /\
      (rejected raw = true ->
       (exists err : Error, World.console w' = Invalid_message err :: World.console w) /\
       World.sent w' = World.sent w /\
       (forall r : Ref,
           Player.set_lastSeen (World.objects w' r) 0
           = Player.set_lastSeen (World.objects w r) 0)) /\
      (forall msg : JValue,
          raw = JSONText msg -> rejected raw = false ->
          (World.console w' = World.console w
           \/ (message_type msg = Some "ping"
               /\ World.console w' = Invalid_message SendError :: World.console w)) /\
          (message_type msg <> Some "ping" ->
           World.console w' = World.console w /\ World.sent w' = World.sent w)))
  /\
  (forall (obj : JValue) (w : World.t),
      has_key "values" (World.own w) = false ->
      let w' := exec (broadcast obj) w in
      fst (broadcast obj w) = Normal tt /\
      delivered (broadcast obj) w
        = rev (map (fun c => (c, JSON_stringify obj)) (recipients w)) /\
      (forall (c : Conn) (payload : JValue),
          In (c, payload) (delivered (broadcast obj) w) ->
          World.readyState w c = OPEN /\ payload = JSON_stringify obj) /\
      w' = World.set_sent w (delivered (broadcast obj) w ++ World.sent w)).
Proof.
  split.
  - intros player raw now w w'. subst w'.
    split; [ apply on_message_completes | ].
    destruct (on_message_frame player raw now w) as (F1 & F2 & F3).
    repeat (split; [ assumption | ]).
    split.
    + intros Hm. apply rejected_dropped. exact Hm.
    + intros msg E Hm. subst raw. apply handled_not_logged. exact Hm.
  - intros obj w Hv w'. subst w'.
    assert (Hd : delivered (broadcast obj) w = deliveries obj w).
    { apply delivered_new. unfold exec. rewrite (broadcast_normal obj w Hv). reflexivity. }
    unfold exec. rewrite Hd, (broadcast_normal obj w Hv). cbn [fst snd].
    split; [ reflexivity | ]. split; [ reflexivity | ]. split; [ | reflexivity ].
    intros c payload Hin. apply In_deliveries in Hin. destruct Hin as [Hin E].
    apply In_recipients in Hin. destruct Hin as (k & r & _ & _ & Hopen). auto.
Qed.

(** An [input] message without [input], and a broadcast when the only
    registered transport is closed. *)
Lemma failures_are_isolated_witness :
  (exists err : Error,
      World.console (exec (on_message 0 bare_input 1200) world_A_right)
      = Invalid_message err :: World.console world_A_right) /\
  delivered (broadcast (remove_message "0b0b0b0b0b0b0b0b")) (transport 1 CLOSED world_A) = [].
Proof.
  destruct failures_are_isolated as [Hmessage Hbroadcast]. split.
  - destruct (Hmessage 0%nat bare_input 1200%Z world_A_right) as (_ & _ & _ & _ & H & _).
    destruct (H eq_refl) as [Hlog _]. exact Hlog.
  - destruct (Hbroadcast (remove_message "0b0b0b0b0b0b0b0b") (transport 1 CLOSED world_A) eq_refl)
      as (_ & Hd & _).
    rewrite Hd. reflexivity.
Defined.

(** C8 as stated fails for messages that miss a required field.  An
    [input] message whose [input] is the string "garbage", sent to a
    player that holds the right key, is not logged and not dropped: it
    releases the key.  A [ping] without [ts] is not logged either and is
    answered, by a [pong] without [ts].  The message [{}] is ignored, and
    not logged. *)
Lemma messages_that_miss_a_field_are_handled :
  rejected garbage_input = false /\
  Player.input (World.objects world_A_right 0%nat) = right_only /\
  Player.input (World.objects (exec (on_message 0 garbage_input 1200) world_A_right) 0%nat)
    = idle /\
  World.console (exec (on_message 0 garbage_input 1200) world_A_right)
    = World.console world_A_right /\
  delivered (on_message 0 bare_ping 1200) world_A = [(1%nat, JObj [("type", JStr "pong")])] /\
  World.console (exec (on_message 0 bare_ping 1200) world_A) = World.console world_A /\
  World.console (exec (on_message 0 empty_message 1200) world_A) = World.console world_A.
Proof.
  split; [ reflexivity | ]. split; [ vm_compute; reflexivity | ].
  split; [ vm_compute; reflexivity | ]. split; [ vm_compute; reflexivity | ].
  split; [ vm_compute; reflexivity | ]. split; vm_compute; reflexivity.
Qed.

(** ** The simulation loop *)

(** The loop over the players ticks those it visits and leaves the rest
    of the state alone. *)
Lemma tick_loop_objects (dt : R) (l : list Ref) : forall (w : World.t),
  fst (for_of l (fun r => update_object r (tick_player dt)) w) = Normal tt /\
  let w' := exec (for_of l (fun r => update_object r (tick_player dt))) w in
  World.entries w' = World.entries w /\
  World.own w' = World.own w /\
  World.sent w' = World.sent w /\
  World.lastTime w' = World.lastTime w /\
  (forall r : Ref, ~ In r l -> World.objects w' r = World.objects w r) /\
  (forall r : Ref, In r l -> in_bounds (World.objects w' r)).
Proof.
  induction l as [| a rest IH]; intros w.
  - split; [ reflexivity | ]. cbv zeta. unfold exec. cbn [for_of ret snd].
    do 4 (split; [ reflexivity | ]). split.
    + intros r _. reflexivity.
    + intros r Hr. destruct Hr.
  - cbn [for_of]. unfold exec, bind.
    change (update_object a (tick_player dt) w)
      with (Normal tt,
            World.set_objects w
              (fun r' => if Nat.eqb r' a then tick_player dt (World.objects w a)
                         else World.objects w r')).
    cbv beta iota.
    set (w1 := World.set_objects w _).
    destruct (IH w1) as (Hn & He & Ho & Hs & Hl & Hout & Hin). unfold exec in *.
    split; [ exact Hn | ].
    cbv zeta. split; [ rewrite He; reflexivity | ]. split; [ rewrite Ho; reflexivity | ].
    split; [ rewrite Hs; reflexivity | ]. split; [ rewrite Hl; reflexivity | ].
    split.
    + intros r Hr. rewrite Hout.
      * subst w1. cbn. destruct (Nat.eqb r a) eqn:E; [ | reflexivity ].
        apply Nat.eqb_eq in E. subst r. exfalso. apply Hr. left. reflexivity.
      * intros Hrest. apply Hr. right. exact Hrest.
    + intros r Hr. destruct (in_dec Nat.eq_dec r rest) as [Hrest | Hrest].
      * apply Hin. exact Hrest.
      * rewrite (Hout r Hrest). destruct Hr as [E | Hr]; [ | contradiction ].
        subst r. subst w1. cbn. rewrite Nat.eqb_refl. apply tick_player_in_bounds.
Qed.

Lemma simulation_loop_run (now : Z) (w : World.t) :
  has_key "values" (World.own w) = false ->
  simulation_loop now w =
    for_of (map snd (World.entries w))
      (fun r => update_object r (tick_player (IZR (now - World.lastTime w) / 1000)))
      (World.set_lastTime w now).
Proof.
  intros Hv. unfold simulation_loop.
  step (@read_run Z).
  erewrite bind_normal by (unfold write; reflexivity).
  step_by ltac:(apply players_values_run; exact Hv).
  reflexivity.
Qed.

(** C1: a run of the simulation loop reaches its end, unless a record
    stored at line 58 hides [players.values], and then every player of the
    registry has [x] in [20, 980] and [y] in [20, 580]; the body of the loop
    gives these bounds for any player, whatever its input, its speed and
    [dt]. *)
Theorem positions_stay_in_bounds (now : Z) (w : World.t) :
  has_key "values" (World.own w) = false ->
  let w' := exec (simulation_loop now) w in
  fst (simulation_loop now w) = Normal tt /\
  World.entries w' = World.entries w /\
  (forall p : Player.t, In p (registered w') -> in_bounds p) /\
  (forall (dt : R) (p : Player.t), in_bounds (tick_player dt p)).
Proof.
  intros Hv w'. subst w'. unfold exec. rewrite (simulation_loop_run now w Hv).
  destruct (tick_loop_objects (IZR (now - World.lastTime w) / 1000)
              (map snd (World.entries w)) (World.set_lastTime w now))
    as (Hn & He & _ & _ & _ & _ & Hin).
  unfold exec in *. cbv zeta in *.
  split; [ exact Hn | ]. split; [ exact He | ]. split.
  - intros p Hp. unfold registered in Hp. apply in_map_iff in Hp.
    destruct Hp as ([k r] & E & Hkr). cbn [snd] in E. subst p.
    apply Hin. rewrite He in Hkr. apply in_map_iff. exists (k, r). auto.
  - apply tick_player_in_bounds.
Qed.

(** A run of the loop 16 ms after the one connected player pressed the
    right key. *)
Lemma positions_stay_in_bounds_witness :
  in_bounds (World.objects (exec (simulation_loop 1116) world_A_right) 0%nat).
Proof.
  destruct (positions_stay_in_bounds 1116%Z world_A_right eq_refl) as (_ & _ & H & _).
  apply H. left. reflexivity.
Defined.

(** *** Every registered player is ticked once in a run of the loop *)

Lemma tick_loop_once (dt : R) (l : list Ref) : forall (w : World.t),
  NoDup l ->
  let w' := exec (for_of l (fun r => update_object r (tick_player dt))) w in
  forall r : Ref, In r l -> World.objects w' r = tick_player dt (World.objects w r).
Proof.
  induction l as [| a rest IH]; intros w Hnd; cbv zeta.
  - intros r [].
  - inversion Hnd as [| ? ? Hnotin Hrest]; subst.
    cbn [for_of]. unfold exec, bind.
    change (update_object a (tick_player dt) w)
      with (Normal tt,
            World.set_objects w
              (fun r' => if Nat.eqb r' a then tick_player dt (World.objects w a)
                         else World.objects w r')).
    cbv beta iota.
    set (w1 := World.set_objects w _).
    intros r [E | Hr].
    + subst r.
      destruct (tick_loop_objects dt rest w1) as (_ & _ & _ & _ & _ & Hout & _).
      unfold exec in Hout. rewrite (Hout a Hnotin). subst w1. cbn.
      rewrite Nat.eqb_refl. reflexivity.
    + specialize (IH w1 Hrest). cbv zeta in IH. unfold exec in IH. rewrite (IH r Hr).
      subst w1. cbn. destruct (Nat.eqb r a) eqn:E; [ | reflexivity ].
      apply Nat.eqb_eq in E. subst r. contradiction.
Qed.

Lemma simulation_loop_once (now : Z) (w : World.t) :
  has_key "values" (World.own w) = false ->
  NoDup (map snd (World.entries w)) ->
  let w' := exec (simulation_loop now) w in
  fst (simulation_loop now w) = Normal tt /\
  World.entries w' = World.entries w /\
  World.own w' = World.own w /\
  World.lastTime w' = now /\
  (forall (k : string) (r : Ref),
      In (k, r) (World.entries w) ->
      World.objects w' r
      = tick_player (IZR (now - World.lastTime w) / 1000) (World.objects w r)).
Proof.
  intros Hv Hnd. cbv zeta. unfold exec. rewrite (simulation_loop_run now w Hv).
  set (dt := IZR (now - World.lastTime w) / 1000).
  destruct (tick_loop_objects dt (map snd (World.entries w)) (World.set_lastTime w now))
    as (Hn & He & Ho & _ & Hl & _ & _).
  pose proof (tick_loop_once dt (map snd (World.entries w)) (World.set_lastTime w now) Hnd)
    as Honce.
  cbv zeta in *. unfold exec in *.
  split; [ exact Hn | ]. split; [ exact He | ]. split; [ exact Ho | ]. split; [ exact Hl | ].
  intros k r Hin. apply Honce. apply in_map_iff. exists (k, r). auto.
Qed.

(** ** Disconnection *)

Lemma on_close_run (player : Ref) (w : World.t) :
  has_key "delete" (World.own w) = false ->
  has_key "values" (World.own w) = false ->
  on_close player w = (Normal tt, after_close player w).
Proof.
  intros Hd Hv. unfold on_close.
  step object_run.
  step_by ltac:(apply players_delete_run; exact Hd).
  step object_run.
  step_by ltac:(apply broadcast_normal; exact Hv).
  step object_run.
  reflexivity.
Qed.

Lemma keyed_delete_absent {V : Type} (k : string) (l : list (string * V)) :
  has_key k l = false -> keyed_delete k l = l.
Proof.
  unfold has_key. induction l as [| [k' v'] rest IH]; cbn [keyed_delete existsb fst].
  - reflexivity.
  - intros H. apply orb_false_iff in H. destruct H as [E H]. rewrite E, IH by exact H.
    reflexivity.
Qed.

Lemma has_key_In {V : Type} (k : string) (l : list (string * V)) :
  has_key k l = true <-> In k (map fst l).
Proof.
  unfold has_key. rewrite existsb_exists, in_map_iff. split.
  - intros (e & Hin & E). apply String.eqb_eq in E. exists e. auto.
  - intros (e & E & Hin). exists e. split; [ exact Hin | ]. apply String.eqb_eq. exact E.
Qed.

Lemma keyed_delete_subset {V : Type} (k : string) (l : list (string * V)) (e : string * V) :
  In e (keyed_delete k l) -> In e l.
Proof.
  induction l as [| [k' v'] rest IH]; cbn [keyed_delete]; [ auto | ].
  destruct (k' =? k)%string; cbn [In]; intuition.
Qed.

Lemma keyed_delete_removes {V : Type} (k : string) (l : list (string * V)) :
  NoDup (map fst l) -> has_key k (keyed_delete k l) = false.
Proof.
  induction l as [| [k' v'] rest IH]; cbn [keyed_delete map fst]; intros Hnd.
  - reflexivity.
  - inversion Hnd as [| ? ? Hnotin Hrest]; subst.
    destruct (k' =? k)%string eqn:E.
    + apply String.eqb_eq in E. subst k'.
      destruct (has_key k rest) eqn:Hk; [ | reflexivity ].
      apply has_key_In in Hk. contradiction.
    + unfold has_key in *. cbn [existsb fst]. rewrite E. apply IH. exact Hrest.
Qed.

(** ** The periodic snapshot *)

Lemma JSON_stringify_snapshot_items (ps : list Player.t) :
  map (fun item => match item with
                   | JUndefined => JNull
                   | _ => JSON_stringify item
                   end) (map snapshot_item ps)
  = map snapshot_item ps.
Proof.
  rewrite map_map. apply map_ext. intros p. reflexivity.
Qed.

Lemma JSON_stringify_periodic_snapshot (now : Z) (w : World.t) :
  JSON_stringify (periodic_snapshot now w) = periodic_snapshot now w.
Proof.
  unfold periodic_snapshot, snapshot_message. cbn [JSON_stringify].
  rewrite JSON_stringify_snapshot_items. reflexivity.
Qed.

Lemma snapshot_broadcaster_run (now : Z) (w : World.t) :
  has_key "values" (World.own w) = false ->
  snapshot_broadcaster now w = (Normal tt, after_broadcast (periodic_snapshot now w) w).
Proof.
  intros Hv. unfold snapshot_broadcaster.
  step_by ltac:(apply players_values_run; exact Hv).
  step (@read_run (list Player.t)).
  rewrite (broadcast_normal _ w Hv).
  unfold periodic_snapshot, registered. rewrite !map_map. reflexivity.
Qed.

(** X22: the periodic snapshot lists the players of the registry, and only
    them, each with its id, its rounded position and velocity and its
    colour, under [type], [ts] and [players]; every open transport of the
    registry gets the same payload once. *)
Theorem periodic_snapshot_lists_the_registry (now : Z) (w : World.t) :
  has_key "values" (World.own w) = false ->
  let payload := periodic_snapshot now w in
  fst (snapshot_broadcaster now w) = Normal tt /\
  delivered (snapshot_broadcaster now) w = rev (map (fun c => (c, payload)) (recipients w)) /\
  keys payload = ["type"; "ts"; "players"] /\
  snapshot_item_keys payload
    = map (fun _ => ["id"; "x"; "y"; "vx"; "vy"; "color"]) (registered w) /\
  snapshot_ids payload = map (fun p => JStr (Player.id p)) (registered w) /\
  (forall p : Player.t,
      snapshot_item p
      = JObj [("id", JStr (Player.id p));
              ("x", JNum (IZR (Zfloor (Player.x p + / 2))));
              ("y", JNum (IZR (Zfloor (Player.y p + / 2))));
              ("vx", JNum (IZR (Zfloor (Player.vx p + / 2))));
              ("vy", JNum (IZR (Zfloor (Player.vy p + / 2))));
              ("color", JStr (Player.color p))]).
Proof.
  intros Hv payload. subst payload.
  rewrite (snapshot_broadcaster_run now w Hv). cbn [fst].
  split; [ reflexivity | ]. split.
  { apply delivered_new. unfold exec. rewrite (snapshot_broadcaster_run now w Hv).
    cbn [snd after_broadcast World.sent World.set_sent]. unfold deliveries.
    rewrite JSON_stringify_periodic_snapshot. reflexivity. }
  split; [ reflexivity | ].
  unfold periodic_snapshot, snapshot_message, snapshot_item_keys, snapshot_ids.
  cbn [own_property String.eqb Ascii.eqb Bool.eqb].
  rewrite !map_map. repeat split.
Qed.

(** C4, where the code differs from the claim, at the first connection to
    a server: the snapshot that the connection handler broadcasts has no
    [ts], its one item has an [ip] and the identifier of line 56, and the
    player of the registry, which the periodic snapshot lists, is not in
    it. *)
Theorem join_snapshot_is_built_from_the_shadow_records :
  exists payload : JValue,
    of_type "snapshot" (delivered (on_connection 1 request_A entropy_A 1000) empty_world)
      = [(1%nat, payload)] /\
    keys payload = ["type"; "players"] /\
    snapshot_item_keys payload = [["id"; "x"; "y"; "vx"; "vy"; "color"; "ip"]] /\
    snapshot_ids payload = [JStr "k3j9x2a"] /\
    map Player.id (registered world_A) = ["0a0a0a0a0a0a0a0a"] /\
    snapshot_ids (periodic_snapshot 1100 world_A) = [JStr "0a0a0a0a0a0a0a0a"].
Proof.
  eexists. split; [ vm_compute; reflexivity | ].
  repeat (split; [ vm_compute; reflexivity | ]). vm_compute. reflexivity.
Qed.

(** C7, where the code differs from the claim: A connects and is welcomed
    as "k3j9x2a", A disconnects and leaves the registry, B connects; the
    snapshot that the connection handler then hands to B still has the item
    of A, with the identifier and the address of A. *)
Theorem departed_player_stays_in_join_snapshots :
  of_type "welcome" (World.sent world_A) = [(1%nat, welcome_message "k3j9x2a" "10.0.0.7")] /\
  map Player.id (registered world_A) = ["0a0a0a0a0a0a0a0a"] /\
  fst (on_close 0 (transport 1 CLOSED world_A)) = Normal tt /\
  registered world_A_gone = [] /\
  World.own world_A_gone = World.own world_A /\
  exists payload : JValue,
    of_type "snapshot" (delivered connection_B world_A_gone) = [(2%nat, payload)] /\
    snapshot_ids payload = [JStr "k3j9x2a"; JStr "q81m5zt"] /\
    In (JObj [("id", JStr "k3j9x2a"); ("x", JNum 100); ("y", JNum 100);
              ("vx", JNum 0); ("vy", JNum 0);
              ("color", JStr "#101010"); ("ip", JStr "10.0.0.7")])
       (match payload with
        | JObj fields =>
            match own_property "players" fields with JArr items => items | _ => [] end
        | _ => []
        end).
Proof.
  repeat (split; [ vm_compute; reflexivity | ]).
  eexists. split; [ vm_compute; reflexivity | ]. split; [ vm_compute; reflexivity | ].
  vm_compute. left. reflexivity.
Qed.

(** X21: when a connection closes, the entry of its id leaves the registry,
    every open transport that remains registered gets one [remove] with the
    id, the registry stays a map of players under their own ids, and no
    later periodic snapshot lists the id; when the id is in no entry the
    registry is left as it is. *)
Theorem disconnect_removes_and_announces (player : Ref) (w : World.t) :
  has_key "delete" (World.own w) = false ->
  has_key "values" (World.own w) = false ->
  registry_ok w ->
  let id := Player.id (World.objects w player) in
  let w' := exec (on_close player) w in
  fst (on_close player w) = Normal tt /\
  has_key id (World.entries w') = false /\
  (has_key id (World.entries w) = false -> World.entries w' = World.entries w) /\
  delivered (on_close player) w
    = rev (map (fun c => (c, remove_message id)) (recipients w')) /\
  registry_ok w' /\
  (forall now : Z, ~ In (JStr id) (snapshot_ids (periodic_snapshot now w'))).
Proof.
  intros Hd Hv [Hnd Hid] id w'. subst w'. unfold exec.
  rewrite (on_close_run player w Hd Hv). cbn [fst snd]. fold id.
  assert (He : World.entries (after_close player w)
               = keyed_delete id (World.entries w)) by reflexivity.
  assert (Ho : World.objects (after_close player w) = World.objects w) by reflexivity.
  assert (Hgone : has_key id (World.entries (after_close player w)) = false).
  { rewrite He. apply keyed_delete_removes. exact Hnd. }
  assert (Hok : registry_ok (after_close player w)).
  { split.
    - rewrite He. clear - Hnd. induction (World.entries w) as [| [k r] rest IH];
        cbn [keyed_delete map fst] in *; [ constructor | ].
      inversion Hnd as [| ? ? Hnotin Hrest]; subst.
      destruct (k =? id)%string; [ exact Hrest | ].
      cbn [map fst]. constructor; [ | apply IH; exact Hrest ].
      intros Hin. apply Hnotin. apply in_map_iff in Hin. destruct Hin as (e & E & Hin).
      apply in_map_iff. exists e. split; [ exact E | ].
      apply (keyed_delete_subset id rest e Hin).
    - intros k r Hin. rewrite Ho. apply Hid. rewrite He in Hin.
      apply (keyed_delete_subset id _ _ Hin). }
  split; [ reflexivity | ]. split; [ exact Hgone | ]. split; [ | split; [ | split ] ].
  - intros Habsent. rewrite He. apply keyed_delete_absent. exact Habsent.
  - apply delivered_new. unfold exec. rewrite (on_close_run player w Hd Hv). reflexivity.
  - exact Hok.
  - intros now Hin.
    unfold periodic_snapshot, snapshot_message, snapshot_ids in Hin.
    cbn [own_property String.eqb Ascii.eqb Bool.eqb] in Hin.
    rewrite map_map in Hin. apply in_map_iff in Hin. destruct Hin as (p & E & Hp).
    cbn in E. unfold registered in Hp. apply in_map_iff in Hp.
    destruct Hp as ([k r] & Ep & Hkr). cbn [snd] in Ep. subst p.
    destruct Hok as [_ Hid']. rewrite (Hid' k r Hkr) in E. inversion E; subst k.
    assert (Hk : has_key id (World.entries (after_close player w)) = true).
    { apply has_key_In. apply in_map_iff. exists (id, r). auto. }
    rewrite Hgone in Hk. discriminate.
Qed.

(** * Further properties of the code *)

(** ** Movement *)

Section Binary64_movement.
Import PrimFloat.
#[local] Open Scope float_scope.

(** X1: in binary64 the position after a second depends on the runs of
    the loop in between.  A player at (500, 300) that moves right at speed
    180 is at x = 680 after one run at 1000 ms, and after runs at 500 and
    1000 ms; it is at 679.9999999999999 after runs at 424 and 1000 ms, and
    at 680.0000000000001 after runs at 451 and 1000 ms. *)
Theorem position_depends_on_tick_boundaries :
  let p := Binary64.at_500_300 right_only in
  Binary64.x (Binary64.run_loops 0 [1000] p) = 680 /\
  Binary64.x (Binary64.run_loops 0 [500; 1000] p) = 680 /\
  Binary64.x (Binary64.run_loops 0 [424; 1000] p) = 0x1.53fffffffffffp+9 /\
  Binary64.x (Binary64.run_loops 0 [451; 1000] p) = 0x1.5400000000001p+9 /\
  (Binary64.x (Binary64.run_loops 0 [424; 1000] p) <? 680) = true /\
  (680 <? Binary64.x (Binary64.run_loops 0 [451; 1000] p)) = true.
Proof. cbv zeta. repeat split; vm_compute; reflexivity. Qed.

(** X2: a player at (500, 300) with speed 180 that holds up and left over
    four runs of the loop, 250 ms apart, has the velocity
    (-127.27922061357854, -127.27922061357854) and ends at
    (372.72077938642155, 172.72077938642147): it has moved by
    127.27922061357845 to the left and by 127.27922061357853 upwards, not
    by the same amount, and the length of this displacement, computed in
    binary64, is 179.99999999999991. *)
Theorem hold_up_left_one_second_in_binary64 :
  let p := Binary64.at_500_300 up_left in
  let q := Binary64.run_loops 0 [250; 500; 750; 1000] p in
  Binary64.vx q = - 0x1.fd1dec022ec17p+6 /\
  Binary64.vy q = - 0x1.fd1dec022ec17p+6 /\
  Binary64.x q = 0x1.74b884ff744fcp+8 /\
  Binary64.y q = 0x1.597109fee89f5p+7 /\
  Binary64.x q - Binary64.x p = - 0x1.fd1dec022ec10p+6 /\
  Binary64.y q - Binary64.y p = - 0x1.fd1dec022ec16p+6 /\
  Binary64.magnitude (Binary64.x q - Binary64.x p, Binary64.y q - Binary64.y p)
    = 0x1.67ffffffffffdp+7 /\
  (Binary64.magnitude (Binary64.x q - Binary64.x p, Binary64.y q - Binary64.y p) <? 180)
    = true.
Proof. cbv zeta. repeat split; vm_compute; reflexivity. Qed.

End Binary64_movement.


Lemma inv_sqrt2_range : 0 < 1 / Math_sqrt 2 < 1.
Proof.
  pose proof inv_sqrt2_sq as Hs. unfold Math_sqrt in *.
  pose proof Rlt_sqrt2_0 as Hp.
  assert (H0 : 0 < 1 / sqrt 2) by (apply Rdiv_lt_0_compat; lra).
  split; [ exact H0 | ]. nra.
Qed.

Lemma clamp_high (lo hi v : R) : lo <= hi -> hi <= v -> Math_max lo (Math_min hi v) = hi.
Proof.
  intros Hlh Hv. unfold Math_max, Math_min.
  rewrite (Rmin_left hi v) by exact Hv. apply Rmax_right. exact Hlh.
Qed.

Lemma clamp_low (lo hi v : R) : lo <= hi -> v <= lo -> Math_max lo (Math_min hi v) = lo.
Proof.
  intros Hlh Hv. unfold Math_max, Math_min.
  rewrite (Rmin_right hi v) by lra. apply Rmax_left. exact Hv.
Qed.

(** X3: a tick that would carry a player to or beyond a bound of the world
    leaves it on that bound, and the velocity it stores is still the
    direction times the speed: a player pushed against a wall is reported
    as moving. *)
Theorem a_wall_stops_the_position_not_the_velocity (dt : R) (p : Player.t) :
  let vx := fst (direction (Player.input p)) * Player.speed p in
  let vy := snd (direction (Player.input p)) * Player.speed p in
  (980 <= Player.x p + vx * dt -> Player.x (tick_player dt p) = 980) /\
  (Player.x p + vx * dt <= 20 -> Player.x (tick_player dt p) = 20) /\
  (580 <= Player.y p + vy * dt -> Player.y (tick_player dt p) = 580) /\
  (Player.y p + vy * dt <= 20 -> Player.y (tick_player dt p) = 20) /\
  Player.vx (tick_player dt p) = vx /\ Player.vy (tick_player dt p) = vy.
Proof.
  cbv zeta. rewrite tick_player_x, tick_player_y, tick_player_vx, tick_player_vy.
  split; [ intros H; apply clamp_high; lra | ].
  split; [ intros H; apply clamp_low; lra | ].
  split; [ intros H; apply clamp_high; lra | ].
  split; [ intros H; apply clamp_low; lra | ].
  split; reflexivity.
Qed.

(** ** The numbers of a snapshot *)

Lemma Math_round_near (a : R) : a - / 2 < Math_round a <= a + / 2.
Proof.
  unfold Math_round. pose proof (Zfloor_bound (a + / 2)) as [H1 H2]. lra.
Qed.

Lemma Math_round_within (lo hi : Z) (a : R) :
  IZR lo <= a <= IZR hi -> (lo <= Zfloor (a + / 2) <= hi)%Z.
Proof.
  intros [Hlo Hhi]. pose proof (Zfloor_bound (a + / 2)) as [H1 H2]. split.
  - apply Zfloor_lub. lra.
  - assert (H : IZR (Zfloor (a + / 2)) < IZR (hi + 1)) by (rewrite plus_IZR; lra).
    apply lt_IZR in H. lia.
Qed.

(** X4: the position that a periodic snapshot gives for a player within
    the bounds is a pair of integers within the bounds, each at most half
    a unit from the coordinate it rounds. *)
Theorem snapshot_position_is_integral_and_in_bounds (p : Player.t) :
  in_bounds p ->
  exists zx zy : Z,
    snapshot_item p
    = JObj [("id", JStr (Player.id p)); ("x", JNum (IZR zx)); ("y", JNum (IZR zy));
            ("vx", JNum (Math_round (Player.vx p)));
            ("vy", JNum (Math_round (Player.vy p)));
            ("color", JStr (Player.color p))] /\
    (20 <= zx <= 980)%Z /\ (20 <= zy <= 580)%Z /\
    Rabs (IZR zx - Player.x p) <= / 2 /\ Rabs (IZR zy - Player.y p) <= / 2.
Proof.
  intros [Hx Hy].
  exists (Zfloor (Player.x p + / 2)), (Zfloor (Player.y p + / 2)).
  split; [ reflexivity | ].
  split; [ apply Math_round_within; exact Hx | ].
  split; [ apply Math_round_within; exact Hy | ].
  pose proof (Math_round_near (Player.x p)) as Nx.
  pose proof (Math_round_near (Player.y p)) as Ny. unfold Math_round in *.
  split; apply Rabs_le; lra.
Qed.

(** A player at (679.5, 300.25): the snapshot gives (680, 300). *)
Lemma snapshot_position_is_integral_and_in_bounds_witness :
  exists zx zy : Z,
    (20 <= zx <= 980)%Z /\ (20 <= zy <= 580)%Z /\
    Rabs (IZR zx - (679 + / 2)) <= / 2 /\ Rabs (IZR zy - (300 + / 4)) <= / 2.
Proof.
  destruct (snapshot_position_is_integral_and_in_bounds
              (Player.mk "a" 1 (679 + / 2) (300 + / 4) 180 0 180 right_only "#000000" 0))
    as (zx & zy & _ & H).
  - unfold in_bounds. cbn. lra.
  - exists zx, zy. exact H.
Defined.

(** ** New players *)

(** X5: [createPlayer] makes a new object, leaves every other object and
    the registry as they were, and the player it makes is at rest inside
    the spawn region [100, 700) x [100, 500), which lies within the bounds
    of the world, with no key held and speed 180. *)
Theorem a_new_player_is_at_rest_in_the_spawn_region
    (ws : Conn) (e : Entropy) (now : Z) (w : World.t) :
  0 <= spawn_x e < 1 -> 0 <= spawn_y e < 1 ->
  let w' := exec (createPlayer ws e now) w in
  let p := World.objects w' (World.allocated w) in
  fst (createPlayer ws e now w) = Normal (World.allocated w) /\
  100 <= Player.x p < 700 /\ 100 <= Player.y p < 500 /\ in_bounds p /\
  Player.vx p = 0 /\ Player.vy p = 0 /\ Player.input p = idle /\
  Player.speed p = 180 /\ Player.ws p = ws /\ Player.lastSeen p = now /\
  World.entries w' = World.entries w /\
  (forall r : Ref, r <> World.allocated w -> World.objects w' r = World.objects w r).
Proof.
  intros Hx Hy w' p. subst p w'. unfold exec. rewrite createPlayer_run. cbn [fst snd].
  rewrite created_object. unfold new_player, in_bounds.
  cbn [Player.x Player.y Player.vx Player.vy Player.input Player.speed Player.ws
       Player.lastSeen].
  split; [ reflexivity | ]. split; [ lra | ]. split; [ lra | ]. split; [ lra | ].
  do 6 (split; [ reflexivity | ]). split; [ reflexivity | ].
  intros r Hr. cbn. destruct (Nat.eqb r (World.allocated w)) eqn:E; [ | reflexivity ].
  apply Nat.eqb_eq in E. contradiction.
Qed.

(** The player of the first connection, drawn at the middle of the
    region. *)
Lemma a_new_player_is_at_rest_in_the_spawn_region_witness :
  in_bounds (World.objects (exec (createPlayer 1%nat entropy_A 1000%Z) empty_world) 0%nat).
Proof.
  destruct (a_new_player_is_at_rest_in_the_spawn_region 1%nat entropy_A 1000%Z empty_world)
    as (_ & _ & _ & H & _).
  - cbn. lra.
  - cbn. lra.
  - exact H.
Defined.

(** ** Identifiers and colours *)

Lemma hex_digit_is_hex (n : N) : is_hex (hex_digit n) = true.
Proof.
  destruct n as [| q]; [ reflexivity | ].
  do 4 (try destruct q as [q | q |]); reflexivity.
Qed.

Lemma toString_hex_is_hex (buf : list byte) :
  forallb is_hex (list_ascii_of_string (toString_hex buf)) = true.
Proof.
  induction buf as [| b rest IH]; [ reflexivity | ].
  cbn [toString_hex list_ascii_of_string forallb].
  rewrite !hex_digit_is_hex, IH. reflexivity.
Qed.

(** X6: the id of a player is sixteen characters and its colour is [#]
    and six characters, all of them among [0123456789abcdef], whatever
    bytes were drawn. *)
Theorem ids_and_colours_are_hexadecimal (ws : Conn) (e : Entropy) (now : Z) :
  let p := new_player ws e now in
  String.length (Player.id p) = 16%nat /\
  forallb is_hex (list_ascii_of_string (Player.id p)) = true /\
  (exists digits : string,
      Player.color p = String "#" digits /\ String.length digits = 6%nat /\
      forallb is_hex (list_ascii_of_string digits) = true).
Proof.
  cbv zeta. split; [ apply length_player_id | ].
  split; [ apply toString_hex_is_hex | ].
  exists (toString_hex (crypto_randomBytes 3 (color_bytes e))).
  split; [ reflexivity | ].
  split; [ rewrite length_toString_hex, length_crypto_randomBytes; reflexivity | ].
  apply toString_hex_is_hex.
Qed.

Lemma hex_value_digit (n : N) : (n < 16)%N -> hex_value (hex_digit n) = n.
Proof.
  intros H. destruct n as [| q]; [ reflexivity | ].
  do 4 (try destruct q as [q | q |]); try reflexivity; exfalso; lia.
Qed.

Lemma byte_of_digits (b : byte) :
  Byte.of_N (hex_value (hex_digit (Byte.to_N b / 16)) * 16
             + hex_value (hex_digit (Byte.to_N b mod 16)))%N = Some b.
Proof.
  pose proof (Byte.to_N_bounded b) as Hb.
  rewrite !hex_value_digit.
  - rewrite N.mul_comm, <- N.div_mod by discriminate. apply Byte.of_to_N.
  - apply N.mod_lt. discriminate.
  - apply N.Div0.div_lt_upper_bound. lia.
Qed.

Lemma toString_hex_injective (a : list byte) : forall (b : list byte),
  toString_hex a = toString_hex b -> a = b.
Proof.
  induction a as [| x a IH]; intros [| y b] H; cbn [toString_hex] in H;
    try discriminate; [ reflexivity | ].
  inversion H as [[H1 H2 H3]].
  pose proof (byte_of_digits x) as Ex. pose proof (byte_of_digits y) as Ey.
  rewrite H1, H2, Ey in Ex. inversion Ex; subst. f_equal. apply IH. exact H3.
Qed.

(** X7: two players get the same id exactly when [crypto.randomBytes] gave
    the same eight bytes to both: the hexadecimal text loses nothing. *)
Theorem ids_collide_only_with_the_random_bytes
    (ws1 ws2 : Conn) (e1 e2 : Entropy) (now1 now2 : Z) :
  Player.id (new_player ws1 e1 now1) = Player.id (new_player ws2 e2 now2) <->
  crypto_randomBytes 8 (id_bytes e1) = crypto_randomBytes 8 (id_bytes e2).
Proof.
  unfold new_player. cbn [Player.id]. split.
  - apply toString_hex_injective.
  - intros H. rewrite H. reflexivity.
Qed.

(** ** The address of a client *)

Lemma prefix_app (p s t : string) :
  (String.length p <= String.length s)%nat -> prefix p (s ++ t) = prefix p s.
Proof.
  revert s. induction p as [| c p IH]; intros s H.
  - destruct s; [ destruct t; reflexivity | reflexivity ].
  - destruct s as [| d s]; [ cbn in H; lia | ].
    cbn [append prefix]. destruct (ascii_dec c d); [ | reflexivity ].
    apply IH. cbn in H. lia.
Qed.

Lemma replace_skip (p s : string) (c : ascii) :
  prefix p (String c s) = false ->
  replace p "" (String c s) = String c (replace p "" s).
Proof. intros H. cbn [replace]. rewrite H. reflexivity. Qed.

Lemma length_append (s t : string) :
  String.length (s ++ t) = (String.length s + String.length t)%nat.
Proof. induction s as [| c s IH]; cbn [append String.length]; [ reflexivity | rewrite IH; reflexivity ]. Qed.

Lemma append_assoc (s t u : string) : ((s ++ t) ++ u = s ++ t ++ u)%string.
Proof. induction s as [| c s IH]; cbn [append]; [ reflexivity | rewrite IH; reflexivity ]. Qed.

(** An occurrence that begins within [a] ends before the last character
    of the pattern that follows [a]. *)
Lemma prefix_before (a b : string) (c : ascii) :
  prefix "::ffff:" (String c (a ++ "::ffff:" ++ b))
  = prefix "::ffff:" (String c (a ++ "::ffff")).
Proof.
  change (String c (a ++ "::ffff:" ++ b)) with (String c a ++ ("::ffff" ++ ":" ++ b))%string.
  rewrite <- append_assoc. apply prefix_app.
  cbn [append String.length]. rewrite length_append. cbn [String.length]. lia.
Qed.

Lemma clean_without (s : string) : includes "::ffff:" s = false -> clean s = s.
Proof.
  unfold clean. induction s as [| c rest IH]; intros H.
  - reflexivity.
  - cbn [includes] in H. apply orb_false_iff in H. destruct H as [Hp Hrest].
    rewrite (replace_skip _ _ _ Hp), (IH Hrest). reflexivity.
Qed.

Lemma clean_first (a b : string) :
  includes "::ffff:" (a ++ "::ffff") = false ->
  clean (a ++ "::ffff:" ++ b) = (a ++ b)%string.
Proof.
  unfold clean. induction a as [| c a IH]; intros H.
  - cbn. destruct b; reflexivity.
  - change (String c a ++ "::ffff")%string with (String c (a ++ "::ffff")) in H.
    cbn [includes] in H. apply orb_false_iff in H. destruct H as [Hp Hrest].
    change (String c a ++ "::ffff:" ++ b)%string with (String c (a ++ "::ffff:" ++ b)).
    rewrite replace_skip by (rewrite prefix_before; exact Hp).
    rewrite (IH Hrest). reflexivity.
Qed.

(** Where a string includes the pattern there is a first occurrence. *)
Lemma includes_first (s : string) :
  includes "::ffff:" s = true ->
  exists a b : string,
    s = (a ++ "::ffff:" ++ b)%string /\ includes "::ffff:" (a ++ "::ffff") = false.
Proof.
  induction s as [| c rest IH]; intros H.
  - discriminate.
  - cbn [includes] in H. destruct (prefix "::ffff:" (String c rest)) eqn:Hp.
    + exists EmptyString, (drop 7 (String c rest)). split; [ | reflexivity ].
      apply prefix_correct in Hp. cbn [String.length] in Hp.
      set (s := String c rest) in *. clearbody s. clear - Hp.
      do 7 (destruct s as [| ? s]; [ discriminate | ]).
      cbn in Hp. injection Hp as E1 E2 E3 E4 E5 E6 E7 _. subst. reflexivity.
    + cbn [orb] in H. destruct (IH H) as (a & b & E & Hno).
      exists (String c a), b. split.
      * cbn [append]. f_equal. exact E.
      * change (String c a ++ "::ffff")%string with (String c (a ++ "::ffff")).
        cbn [includes]. rewrite Hno, orb_false_r.
        rewrite <- prefix_before with (b := b), <- E. exact Hp.
Qed.

(** X8: the address that the connection handler keeps is the address of
    the socket without its first [::ffff:], wherever that stands.  An
    address that begins with it, as that of an IPv4 client behind an IPv6
    socket, loses it; an address that does not include it is kept; an
    IPv6 address that has the group [ffff] after [::] loses that group,
    so that [2001:db8::ffff:1] becomes [2001:db81]; and only the first
    occurrence is removed. *)
Theorem the_address_loses_its_first_mapped_prefix :
  (forall a : string, clean ("::ffff:" ++ a) = a) /\
  (forall s : string, includes "::ffff:" s = false -> clean s = s) /\
  (forall a b : string,
      includes "::ffff:" (a ++ "::ffff") = false ->
      clean (a ++ "::ffff:" ++ b) = (a ++ b)%string) /\
  (forall s : string,
      includes "::ffff:" s = true ->
      exists a b : string,
        s = (a ++ "::ffff:" ++ b)%string /\
        includes "::ffff:" (a ++ "::ffff") = false /\
        clean s = (a ++ b)%string) /\
  clean "2001:db8::ffff:1" = "2001:db81" /\
  clean "a::ffff:b::ffff:c" = "ab::ffff:c".
Proof.
  split; [ intros a; apply (clean_first "" a); reflexivity | ].
  split; [ apply clean_without | ].
  split; [ apply clean_first | ].
  split; [ | split; reflexivity ].
  intros s H. destruct (includes_first s H) as (a & b & E & Hno).
  exists a, b. split; [ exact E | ]. split; [ exact Hno | ].
  rewrite E. apply clean_first. exact Hno.
Qed.


(** ** Messages, one by one *)

Lemma touched_object (player : Ref) (now : Z) (w : World.t) (r : Ref) :
  World.objects (touched player now w) r
  = if Nat.eqb r player then Player.set_lastSeen (World.objects w player) now
    else World.objects w r.
Proof. reflexivity. Qed.

Lemma stringify_carried (ts : JValue) :
  ts = JUndefined \/ carried ts ->
  JSON_stringify (pong_message ts)
  = JObj (("type", JStr "pong")
          :: match ts with
             | JUndefined => []
             | _ => [("ts", ts)]
             end).
Proof.
  intros [E | H]; [ subst ts; reflexivity | ].
  destruct ts; try contradiction; reflexivity.
Qed.

(** X9: a [ping] whose [ts] is a string, a boolean, [null], an integer of
    at most 2^53 in magnitude, or missing, is answered with one [pong]
    that carries this [ts], handed to the transport of the sender and to
    no other; a ping without [ts] gets a pong without [ts].  When the
    transport of the sender is not open nothing is sent, and the failure
    is logged if the library throws.  The keys held stay as they were. *)
Theorem a_ping_is_answered_to_its_sender
    (player : Ref) (fields : list (string * JValue)) (now : Z) (w : World.t) :
  own_property "type" fields = JStr "ping" ->
  own_property "ts" fields = JUndefined \/ carried (own_property "ts" fields) ->
  let run := on_message player (JSONText (JObj fields)) now in
  let w' := exec run w in
  let c := Player.ws (World.objects w player) in
  let state := World.readyState w c in
  let ts := own_property "ts" fields in
  let pong := JObj (("type", JStr "pong")
                    :: match ts with
                       | JUndefined => []
                       | _ => [("ts", ts)]
                       end) in
  delivered run w = (if is_open state then [(c, pong)] else []) /\
  World.console w'
    = (if is_open state || negb (World.send_throws w state) then World.console w
       else Invalid_message SendError :: World.console w) /\
  Player.input (World.objects w' player) = Player.input (World.objects w player).
Proof.
  intros Ht Hts run w' c state ts pong. subst run w' pong ts.
  rewrite <- (stringify_carried _ Hts).
  assert (Hrun : on_message player (JSONText (JObj fields)) now w
                 = match ws_send c (JSON_stringify (pong_message (own_property "ts" fields)))
                           (touched player now w) with
                   | (Normal a, w1) => (Normal a, w1)
                   | (Throw err, w1) => console_log (Invalid_message err) w1
                   end).
  { rewrite on_message_run, handleMessage_run. cbv zeta.
    cbn [absent property key_name]. rewrite Ht.
    cbn [String.eqb Ascii.eqb Bool.eqb]. rewrite touched_object, Nat.eqb_refl.
    reflexivity. }
  split; [ | split ].
  - apply delivered_new. unfold exec. rewrite Hrun. unfold ws_send.
    change (World.readyState (touched player now w) c) with state.
    change (World.send_throws (touched player now w)) with (World.send_throws w).
    destruct state; try (destruct (World.send_throws w _)); reflexivity.
  - unfold exec. rewrite Hrun. unfold ws_send.
    change (World.readyState (touched player now w) c) with state.
    change (World.send_throws (touched player now w)) with (World.send_throws w).
    destruct state; try (destruct (World.send_throws w _)); reflexivity.
  - unfold exec. rewrite Hrun. unfold ws_send.
    change (World.readyState (touched player now w) c) with state.
    change (World.send_throws (touched player now w)) with (World.send_throws w).
    destruct state; try (destruct (World.send_throws w _)); cbn;
      rewrite Nat.eqb_refl; reflexivity.
Qed.

(** A pings with the time 42 on its open transport. *)
Lemma a_ping_is_answered_to_its_sender_witness :
  delivered (on_message 0 ping_42 1200) world_A
  = [(1%nat, JObj [("type", JStr "pong"); ("ts", JNum 42)])].
Proof.
  assert (Hts : own_property "ts" [("type", JStr "ping"); ("ts", JNum 42)] = JUndefined
                \/ carried (own_property "ts" [("type", JStr "ping"); ("ts", JNum 42)])).
  { right. cbn. exists 42%Z. split; [ reflexivity | lia ]. }
  destruct (a_ping_is_answered_to_its_sender 0%nat
              [("type", JStr "ping"); ("ts", JNum 42)] 1200%Z world_A eq_refl Hts)
    as (Hd & _).
  unfold ping_42. rewrite Hd. vm_compute. reflexivity.
Defined.

(** X10: a message that parses to a value other than [null] and whose
    [type] is neither ["input"] nor ["ping"], or is missing, is ignored:
    it is not logged, nothing is sent for it, and it changes nothing but
    the [lastSeen] of its sender. *)
Theorem a_message_of_unknown_type_is_ignored
    (player : Ref) (msg : JValue) (now : Z) (w : World.t) :
  absent msg = false ->
  property msg k_type <> JStr "input" ->
  property msg k_type <> JStr "ping" ->
  on_message player (JSONText msg) now w = (Normal tt, touched player now w).
Proof.
  intros Ha Hi Hp. rewrite on_message_run, handleMessage_run. cbv zeta. rewrite Ha.
  destruct (property msg k_type) as [| | b | r | s | items | fields ]; try reflexivity.
  destruct (s =? "input")%string eqn:Ei.
  { apply String.eqb_eq in Ei. subst s. contradiction. }
  destruct (s =? "ping")%string eqn:Ep.
  { apply String.eqb_eq in Ep. subst s. contradiction. }
  reflexivity.
Qed.

(** A chat message, which the server does not know. *)
Lemma a_message_of_unknown_type_is_ignored_witness :
  on_message 0 (JSONText (JObj [("type", JStr "chat"); ("text", JStr "hi")])) 1200 world_A
  = (Normal tt, touched 0%nat 1200%Z world_A).
Proof.
  apply (a_message_of_unknown_type_is_ignored 0%nat
           (JObj [("type", JStr "chat"); ("text", JStr "hi")]) 1200%Z world_A).
  - reflexivity.
  - discriminate.
  - discriminate.
Defined.

Lemma on_message_objects (player : Ref) (raw : RawData) (now : Z) (w : World.t) (r : Ref) :
  let q := World.objects (exec (on_message player raw now) w) r in
  (q = World.objects w r \/
   (r = player /\
    (q = Player.set_lastSeen (World.objects w r) now \/
     exists i : Input.t,
       q = Player.set_input (Player.set_lastSeen (World.objects w r) now) i))) /\
  (forall msg : JValue, raw = JSONText msg -> r = player -> Player.lastSeen q = now).
Proof.
  cbv zeta. unfold exec. rewrite on_message_run.
  destruct raw as [| msg].
  { split; [ left; reflexivity | intros msg H; discriminate ]. }
  rewrite handleMessage_run. cbv zeta.
  assert (Htouched :
    (World.objects (touched player now w) r = World.objects w r \/
     r = player /\
     (World.objects (touched player now w) r = Player.set_lastSeen (World.objects w r) now \/
      exists i : Input.t,
        World.objects (touched player now w) r
        = Player.set_input (Player.set_lastSeen (World.objects w r) now) i)) /\
    (r = player -> Player.lastSeen (World.objects (touched player now w) r) = now)).
  { rewrite touched_object. destruct (Nat.eqb r player) eqn:E.
    - apply Nat.eqb_eq in E. subst r. split; [ right; split; [ reflexivity | left; reflexivity ] | ].
      intros _. reflexivity.
    - apply Nat.eqb_neq in E. split; [ left; reflexivity | intros H; contradiction ]. }
  destruct Htouched as [Ht Hl].
  destruct (absent msg).
  { split; [ exact Ht | intros m _ Hr; apply Hl; exact Hr ]. }
  destruct (property msg k_type) as [| | b | x | s | items | fields ];
    try solve [ split; [ exact Ht | intros m _ Hr; apply Hl; exact Hr ] ].
  destruct (s =? "input")%string.
  - destruct (absent (property msg k_input)).
    + split; [ exact Ht | intros m _ Hr; apply Hl; exact Hr ].
    + cbn [snd]. unfold exec, update_object, write. cbn [snd World.objects World.set_objects].
      rewrite !touched_object. destruct (Nat.eqb r player) eqn:E.
      * apply Nat.eqb_eq in E. subst r. rewrite Nat.eqb_refl. split.
        -- right. split; [ reflexivity | ]. right. eexists. reflexivity.
        -- intros m _ _. reflexivity.
      * apply Nat.eqb_neq in E. split; [ left; reflexivity | intros m _ H; contradiction ].
  - destruct (s =? "ping")%string.
    + pose proof (ws_send_frame (Player.ws (World.objects (touched player now w) player))
                    (JSON_stringify (pong_message (property msg k_ts)))
                    (touched player now w)) as (_ & _ & _ & _ & Ho).
      cbv zeta in Ho.
      destruct (ws_send _ _ (touched player now w)) as [[[] | err] w1];
        unfold console_log, write; cbn [snd World.objects World.set_console] in *;
        rewrite Ho; (split; [ exact Ht | intros m _ Hr; apply Hl; exact Hr ]).
    + split; [ exact Ht | intros m _ Hr; apply Hl; exact Hr ].
Qed.

(** X11: no message, whatever its content, moves a player or changes its
    velocity, speed, id, colour or transport: a message changes at most the
    keys held and the [lastSeen] of its sender, and nothing of any other
    player.  Every message that parses, even one that is then dropped,
    sets the [lastSeen] of its sender to the time of its arrival. *)
Theorem a_message_changes_only_input_and_lastSeen
    (player : Ref) (raw : RawData) (now : Z) (w : World.t) :
  let w' := exec (on_message player raw now) w in
  (forall r : Ref,
      Player.set_input (Player.set_lastSeen (World.objects w' r) 0) idle
      = Player.set_input (Player.set_lastSeen (World.objects w r) 0) idle) /\
  (forall r : Ref, r <> player -> World.objects w' r = World.objects w r) /\
  (forall msg : JValue,
      raw = JSONText msg -> Player.lastSeen (World.objects w' player) = now) /\
  (raw = Unparseable -> World.objects w' = World.objects w).
Proof.
  cbv zeta. split; [ | split; [ | split ] ].
  - intros r. destruct (on_message_objects player raw now w r) as [H _]. cbv zeta in H.
    destruct H as [H | [_ [H | [i H]]]]; rewrite H; reflexivity.
  - intros r Hr. destruct (on_message_objects player raw now w r) as [H _]. cbv zeta in H.
    destruct H as [H | [E _]]; [ exact H | contradiction ].
  - intros msg E. destruct (on_message_objects player raw now w player) as [_ H].
    apply (H msg E). reflexivity.
  - intros E. subst raw. reflexivity.
Qed.

(** X12: the keys of an [input] message take effect at the next run of the
    simulation loop: the message itself leaves the position and the
    velocity of the player as they were, and the run that follows stores
    the velocity of the new keys and moves the player by it for the time
    since the run before. *)
Theorem an_input_moves_the_player_at_the_next_tick
    (player : Ref) (k : string) (fields : list (string * JValue)) (now now' : Z)
    (w : World.t) :
  own_property "type" fields = JStr "input" ->
  absent (own_property "input" fields) = false ->
  has_key "values" (World.own w) = false ->
  NoDup (map snd (World.entries w)) ->
  In (k, player) (World.entries w) ->
  let keys := flags (own_property "input" fields) in
  let p := World.objects w player in
  let w1 := exec (on_message player (JSONText (JObj fields)) now) w in
  let w2 := exec (simulation_loop now') w1 in
  let dt := IZR (now' - World.lastTime w) / 1000 in
  let vx := fst (direction keys) * Player.speed p in
  let vy := snd (direction keys) * Player.speed p in
  Player.x (World.objects w1 player) = Player.x p /\
  Player.y (World.objects w1 player) = Player.y p /\
  Player.vx (World.objects w1 player) = Player.vx p /\
  Player.vy (World.objects w1 player) = Player.vy p /\
  Player.vx (World.objects w2 player) = vx /\
  Player.vy (World.objects w2 player) = vy /\
  Player.x (World.objects w2 player) = Math_max 20 (Math_min 980 (Player.x p + vx * dt)) /\
  Player.y (World.objects w2 player) = Math_max 20 (Math_min 580 (Player.y p + vy * dt)).
Proof.
  intros Ht Hi Hv Hnd Hin. cbv zeta.
  assert (Hrun : on_message player (JSONText (JObj fields)) now w
                 = (Normal tt,
                    exec (update_object player
                            (fun q => Player.set_input q (flags (own_property "input" fields))))
                      (touched player now w))).
  { rewrite on_message_run, handleMessage_run. cbv zeta.
    cbn [absent property key_name]. rewrite Ht. cbn [String.eqb Ascii.eqb Bool.eqb].
    rewrite Hi. reflexivity. }
  assert (Hw1 : exec (on_message player (JSONText (JObj fields)) now) w
                = exec (update_object player
                          (fun q => Player.set_input q (flags (own_property "input" fields))))
                    (touched player now w)).
  { unfold exec at 1. rewrite Hrun. reflexivity. }
  rewrite Hw1. clear Hw1 Hrun.
  set (w1 := exec _ (touched player now w)).
  assert (Ho : World.objects w1 player
               = Player.set_input (Player.set_lastSeen (World.objects w player) now)
                   (flags (own_property "input" fields))).
  { subst w1. unfold exec, update_object, write. cbn [snd World.objects World.set_objects].
    rewrite Nat.eqb_refl, touched_object, Nat.eqb_refl. reflexivity. }
  destruct (simulation_loop_once now' w1) as (_ & _ & _ & _ & Hobj).
  - exact Hv.
  - exact Hnd.
  - cbv zeta in Hobj. specialize (Hobj k player Hin).
    change (World.lastTime w1) with (World.lastTime w) in Hobj.
    rewrite Hobj, tick_player_vx, tick_player_vy, tick_player_x, tick_player_y, Ho.
    cbn [Player.x Player.y Player.vx Player.vy Player.input Player.speed
         Player.set_input Player.set_lastSeen].
    repeat split; reflexivity.
Qed.

(** A presses the right key at 1100 ms; the loop last ran at 0 and runs
    again at 1116 ms. *)
Lemma an_input_moves_the_player_at_the_next_tick_witness :
  Player.vx (World.objects (exec (simulation_loop 1116) world_A_right) 0%nat)
  = fst (direction right_only) * 180.
Proof.
  destruct (an_input_moves_the_player_at_the_next_tick 0%nat "0a0a0a0a0a0a0a0a"
              [("type", JStr "input"); ("input", JObj [("right", JBool true)])]
              1100%Z 1116%Z world_A eq_refl eq_refl eq_refl)
    as (_ & _ & _ & _ & H & _).
  - vm_compute. repeat constructor. intros [].
  - vm_compute. left. reflexivity.
  - exact H.
Defined.

(** ** The connection handler, in every case *)

Lemma stage_welcomed_run (ws : Conn) (address : string) (e : Entropy) (now : Z) (w : World.t) :
  is_open (World.readyState w ws) || negb (World.send_throws w (World.readyState w ws)) = true ->
  ws_send ws (JSON_stringify (welcome_message (welcome_id e) (clean address)))
    (stage_assigned ws address e now w)
  = (Normal tt, stage_welcomed ws address e now w).
Proof.
  intros Hsend. destruct (frame_stage_assigned ws address e now w) as [Frs Fst].
  rewrite ws_send_run.
  - unfold stage_welcomed. cbv zeta. rewrite Frs. reflexivity.
  - rewrite Frs, Fst. exact Hsend.
Qed.

Lemma own_stage_welcomed (ws : Conn) (address : string) (e : Entropy) (now : Z) (w : World.t) :
  World.own (stage_welcomed ws address e now w) = World.own (stage_assigned ws address e now w).
Proof.
  unfold stage_welcomed. cbv zeta. destruct (is_open (World.readyState w ws)); reflexivity.
Qed.

(** The outcome of the connection handler: where it throws, and the state
    it leaves there. *)
Lemma on_connection_cases (ws : Conn) (req : Request) (e : Entropy) (now : Z) (w : World.t) :
  on_connection ws req e now w =
    if has_key "set" (World.own w) then (Throw TypeError, stage_created ws e now w)
    else match remoteAddress req with
         | None => (Throw TypeError, stage_inserted ws e now w)
         | Some address =>
             if is_open (World.readyState w ws)
                || negb (World.send_throws w (World.readyState w ws))
             then
               if has_key "values" (World.own w) || (welcome_id e =? "values")%string
               then (Throw TypeError, stage_welcomed ws address e now w)
               else (Normal (World.allocated w), stage_joined ws address e now w)
             else (Throw SendError, stage_assigned ws address e now w)
         end.
Proof.
  destruct (has_key "set" (World.own w)) eqn:Hset.
  { unfold on_connection. step createPlayer_run. step object_run. rewrite created_object.
    erewrite bind_throw; [ reflexivity | ].
    unfold players_set. erewrite bind_throw; [ reflexivity | ].
    apply method_hidden. exact Hset. }
  destruct req as [[address |]]; cbn [remoteAddress].
  2:{ unfold on_connection. step createPlayer_run. step object_run. rewrite created_object.
      step_by ltac:(apply players_set_run; exact Hset). cbn [remoteAddress].
      erewrite bind_throw; reflexivity. }
  destruct (is_open (World.readyState w ws) || negb (World.send_throws w (World.readyState w ws)))
    eqn:Hsend.
  2:{ unfold on_connection. step createPlayer_run. step object_run. rewrite created_object.
      step_by ltac:(apply players_set_run; exact Hset). cbn [remoteAddress].
      step (@ret_run string). step players_assign_run.
      destruct (frame_stage_assigned ws address e now w) as [Frs Fst].
      erewrite bind_throw; [ reflexivity | ].
      apply ws_send_throws. rewrite Frs, Fst. exact Hsend. }
  destruct (has_key "values" (World.own w) || (welcome_id e =? "values")%string) eqn:Hv.
  - unfold on_connection. step createPlayer_run. step object_run. rewrite created_object.
    step_by ltac:(apply players_set_run; exact Hset). cbn [remoteAddress].
    step (@ret_run string). step players_assign_run.
    step_by ltac:(apply stage_welcomed_run; exact Hsend).
    step (@read_run (list (string * Shadow.t))).
    erewrite bind_throw; [ reflexivity | ].
    rewrite broadcast_run, own_stage_welcomed, own_stage_assigned, Hv. reflexivity.
  - apply orb_false_iff in Hv. destruct Hv as [Hv1 Hv2].
    apply on_connection_run. unfold connects. cbn [remoteAddress].
    rewrite Hset, Hsend, Hv1, Hv2. reflexivity.
Qed.

(** X13: the connection handler runs to its end exactly when
    [players.set] and [players.values] are not hidden by a record of line
    58, the socket has an address, the welcome can be sent, and the
    identifier drawn at line 56 is not ["values"]; in every other case it
    throws. *)
Theorem a_connection_completes_exactly_when
    (ws : Conn) (req : Request) (e : Entropy) (now : Z) (w : World.t) :
  (exists (player : Ref) (w' : World.t),
      on_connection ws req e now w = (Normal player, w'))
  <->
  (has_key "set" (World.own w) = false /\
   (exists address : string, remoteAddress req = Some address) /\
   (World.readyState w ws = OPEN \/ World.send_throws w (World.readyState w ws) = false) /\
   has_key "values" (World.own w) = false /\
   welcome_id e <> "values").
Proof.
  rewrite on_connection_cases. split.
  - intros (player & w' & H).
    destruct (has_key "set" (World.own w)); [ discriminate | ].
    destruct (remoteAddress req) as [address |]; [ | discriminate ].
    destruct (is_open (World.readyState w ws)) eqn:Ho;
      destruct (World.send_throws w (World.readyState w ws)) eqn:Hs;
      cbn [orb negb] in H; try discriminate;
      destruct (has_key "values" (World.own w)); cbn [orb] in H; try discriminate;
      destruct (welcome_id e =? "values")%string eqn:Ev; try discriminate;
      apply String.eqb_neq in Ev;
      (split; [ reflexivity | ]); (split; [ exists address; reflexivity | ]);
      (split; [ | split; [ reflexivity | exact Ev ] ]).
    + left. apply is_open_OPEN. exact Ho.
    + left. apply is_open_OPEN. exact Ho.
    + right. reflexivity.
  - intros (Hset & [address Ha] & Hsend & Hv & Hid).
    rewrite Hset, Ha, Hv. apply String.eqb_neq in Hid. rewrite Hid. cbn [orb].
    assert (Hs : is_open (World.readyState w ws)
                 || negb (World.send_throws w (World.readyState w ws)) = true).
    { destruct Hsend as [Ho | Hs].
      - rewrite Ho. reflexivity.
      - rewrite Hs. apply orb_true_r. }
    rewrite Hs. eexists. eexists. reflexivity.
Qed.

(** X14: when the socket of a new connection has no address any more, the
    handler throws at line 55, after line 53 has put the player in the
    registry: at the throw the player is registered, and nothing has been
    sent, logged or stored by line 58 for it. *)
Theorem a_connection_without_address_leaves_its_player_registered
    (ws : Conn) (e : Entropy) (now : Z) (w : World.t) :
  has_key "set" (World.own w) = false ->
  let run := on_connection ws (Build_Request None) e now in
  let w' := exec run w in
  fst (run w) = Throw TypeError /\
  In (Player.id (new_player ws e now), World.allocated w) (World.entries w') /\
  World.objects w' (World.allocated w) = new_player ws e now /\
  In (new_player ws e now) (registered w') /\
  delivered run w = [] /\
  World.own w' = World.own w /\
  World.console w' = World.console w.
Proof.
  intros Hset run w'. subst run w'. unfold exec.
  assert (Hd : delivered (on_connection ws (Build_Request None) e now) w = []).
  { apply delivered_new. unfold exec. rewrite on_connection_cases, Hset. reflexivity. }
  rewrite Hd. rewrite on_connection_cases, Hset. cbn [remoteAddress fst snd].
  split; [ reflexivity | ].
  assert (Hin : In (Player.id (new_player ws e now), World.allocated w)
                   (World.entries (stage_inserted ws e now w))).
  { apply keyed_set_In. }
  assert (Ho : World.objects (stage_inserted ws e now w) (World.allocated w)
               = new_player ws e now).
  { apply created_object. }
  split; [ exact Hin | ]. split; [ exact Ho | ]. split.
  - unfold registered. apply in_map_iff.
    exists (Player.id (new_player ws e now), World.allocated w). cbn [snd]. auto.
  - repeat split.
Qed.

(** A first connection whose socket is already destroyed. *)
Lemma a_connection_without_address_leaves_its_player_registered_witness :
  In (new_player 1 entropy_A 1000)
     (registered (exec (on_connection 1 (Build_Request None) entropy_A 1000) empty_world)).
Proof.
  destruct (a_connection_without_address_leaves_its_player_registered
              1%nat entropy_A 1000%Z empty_world eq_refl) as (_ & _ & _ & H & _).
  exact H.
Defined.

(** ** What the handlers keep *)

Lemma on_connection_frame (ws : Conn) (req : Request) (e : Entropy) (now : Z) (w : World.t) :
  let w' := exec (on_connection ws req e now) w in
  World.objects w' = World.objects (stage_created ws e now w) /\
  World.allocated w' = S (World.allocated w) /\
  (World.entries w' = World.entries w \/
   World.entries w'
   = keyed_set (Player.id (new_player ws e now)) (World.allocated w) (World.entries w)) /\
  (World.own w' = World.own w \/
   exists ip : string,
     World.own w' = keyed_set (welcome_id e) (shadow_record e ip) (World.own w)).
Proof.
  cbv zeta. unfold exec. rewrite on_connection_cases.
  destruct (has_key "set" (World.own w)).
  { cbn [snd]. repeat split; left; reflexivity. }
  destruct (remoteAddress req) as [address |].
  2:{ cbn [snd]. split; [ reflexivity | ]. split; [ reflexivity | ].
      split; [ right; reflexivity | left; reflexivity ]. }
  assert (Hown : World.own (stage_assigned ws address e now w) = World.own w \/
                 exists ip : string,
                   World.own (stage_assigned ws address e now w)
                   = keyed_set (welcome_id e) (shadow_record e ip) (World.own w)).
  { unfold stage_assigned. cbv zeta. destruct (welcome_id e =? "size")%string.
    - left. reflexivity.
    - right. exists (clean address). reflexivity. }
  destruct (frame_stage_joined ws address e now w) as (Ho & He & _ & Hown' & _).
  destruct (is_open (World.readyState w ws)
            || negb (World.send_throws w (World.readyState w ws))).
  - destruct (has_key "values" (World.own w) || (welcome_id e =? "values")%string);
      cbn [snd].
    + rewrite own_stage_welcomed. split; [ | split; [ | split; [ right | exact Hown ] ] ].
      * unfold stage_welcomed, stage_assigned. cbv zeta.
        destruct (is_open (World.readyState w ws)), (welcome_id e =? "size")%string;
          reflexivity.
      * unfold stage_welcomed, stage_assigned. cbv zeta.
        destruct (is_open (World.readyState w ws)), (welcome_id e =? "size")%string;
          reflexivity.
      * unfold stage_welcomed, stage_assigned. cbv zeta.
        destruct (is_open (World.readyState w ws)), (welcome_id e =? "size")%string;
          reflexivity.
    + rewrite Hown'. split; [ exact Ho | ]. split; [ | split; [ right; exact He | exact Hown ] ].
      unfold stage_joined, stage_snapshot, stage_welcomed, stage_assigned. cbv zeta.
      destruct (is_open (World.readyState w ws)), (welcome_id e =? "size")%string;
        reflexivity.
  - cbn [snd]. split; [ | split; [ | split; [ right | exact Hown ] ] ];
      unfold stage_assigned; cbv zeta; destruct (welcome_id e =? "size")%string; reflexivity.
Qed.

Lemma on_close_cases (player : Ref) (w : World.t) :
  on_close player w =
    let id := Player.id (World.objects w player) in
    if has_key "delete" (World.own w) then (Throw TypeError, w)
    else if has_key "values" (World.own w)
         then (Throw TypeError, World.set_entries w (keyed_delete id (World.entries w)))
         else (Normal tt, after_close player w).
Proof.
  cbv zeta. destruct (has_key "delete" (World.own w)) eqn:Hd.
  { unfold on_close. step object_run. erewrite bind_throw; [ reflexivity | ].
    unfold players_delete. erewrite bind_throw; [ reflexivity | ].
    apply method_hidden. exact Hd. }
  destruct (has_key "values" (World.own w)) eqn:Hv.
  - unfold on_close. step object_run.
    step_by ltac:(apply players_delete_run; exact Hd). step object_run.
    erewrite bind_throw; [ reflexivity | ].
    rewrite broadcast_run. cbn [World.own World.set_entries]. rewrite Hv. reflexivity.
  - apply on_close_run; assumption.
Qed.

Lemma simulation_loop_cases (now : Z) (w : World.t) :
  simulation_loop now w =
    if has_key "values" (World.own w) then (Throw TypeError, World.set_lastTime w now)
    else for_of (map snd (World.entries w))
           (fun r => update_object r (tick_player (IZR (now - World.lastTime w) / 1000)))
           (World.set_lastTime w now).
Proof.
  destruct (has_key "values" (World.own w)) eqn:Hv.
  - unfold simulation_loop. step (@read_run Z).
    erewrite bind_normal by (unfold write; reflexivity).
    erewrite bind_throw; [ reflexivity | ].
    unfold players_values. erewrite bind_throw; [ reflexivity | ].
    apply method_hidden. exact Hv.
  - apply simulation_loop_run. exact Hv.
Qed.

Lemma snapshot_broadcaster_cases (now : Z) (w : World.t) :
  snapshot_broadcaster now w =
    if has_key "values" (World.own w) then (Throw TypeError, w)
    else (Normal tt, after_broadcast (periodic_snapshot now w) w).
Proof.
  destruct (has_key "values" (World.own w)) eqn:Hv.
  - unfold snapshot_broadcaster. erewrite bind_throw; [ reflexivity | ].
    unfold players_values. erewrite bind_throw; [ reflexivity | ].
    apply method_hidden. exact Hv.
  - apply snapshot_broadcaster_run. exact Hv.
Qed.

(** A run of the loop over the players changes no id and makes no object. *)
Lemma tick_loop_ids (dt : R) (l : list Ref) : forall (w : World.t),
  let w' := exec (for_of l (fun r => update_object r (tick_player dt))) w in
  World.allocated w' = World.allocated w /\
  (forall r : Ref, Player.id (World.objects w' r) = Player.id (World.objects w r)).
Proof.
  induction l as [| a rest IH]; intros w; cbv zeta.
  - split; [ reflexivity | intros r; reflexivity ].
  - cbn [for_of]. unfold exec, bind.
    change (update_object a (tick_player dt) w)
      with (Normal tt,
            World.set_objects w
              (fun r' => if Nat.eqb r' a then tick_player dt (World.objects w a)
                         else World.objects w r')).
    cbv beta iota. set (w1 := World.set_objects w _).
    destruct (IH w1) as [Ha Hid]. unfold exec in *. split; [ rewrite Ha; reflexivity | ].
    intros r. rewrite Hid. subst w1. cbn. destruct (Nat.eqb r a) eqn:E; [ | reflexivity ].
    apply Nat.eqb_eq in E. subst r.
    destruct (tick_player_frame dt (World.objects w a)) as (F & _). exact F.
Qed.

Lemma on_message_allocated (player : Ref) (raw : RawData) (now : Z) (w : World.t) :
  World.allocated (exec (on_message player raw now) w) = World.allocated w.
Proof.
  unfold exec. rewrite on_message_run. destruct raw as [| msg]; [ reflexivity | ].
  rewrite handleMessage_run. cbv zeta.
  destruct (absent msg); [ reflexivity | ].
  destruct (property msg k_type) as [| | b | x | s | items | fields ]; try reflexivity.
  destruct (s =? "input")%string.
  - destruct (absent (property msg k_input)); reflexivity.
  - destruct (s =? "ping")%string; [ | reflexivity ].
    unfold ws_send.
    destruct (World.readyState (touched player now w) _);
      try (destruct (World.send_throws (touched player now w) _)); reflexivity.
Qed.

Lemma keyed_set_In_inv {V : Type} (k : string) (v : V) (l : list (string * V))
    (e : string * V) :
  In e (keyed_set k v l) -> e = (k, v) \/ In e l.
Proof.
  induction l as [| [k' v'] rest IH]; cbn [keyed_set].
  - intros [H | []]. left. symmetry. exact H.
  - destruct (k' =? k)%string; cbn [In].
    + intros [H | H]; [ left; symmetry; exact H | right; right; exact H ].
    + intros [H | H]; [ right; left; exact H | ].
      destruct (IH H) as [E | Hin]; [ left; exact E | right; right; exact Hin ].
Qed.

Lemma keys_keyed_set {V : Type} (k : string) (v : V) (l : list (string * V)) :
  map fst (keyed_set k v l)
  = if has_key k l then map fst l else (map fst l ++ [k])%list.
Proof.
  unfold has_key. induction l as [| [k' v'] rest IH]; cbn [keyed_set map fst existsb app].
  - reflexivity.
  - destruct (k' =? k)%string eqn:E; cbn [orb map fst].
    + apply String.eqb_eq in E. subst k'. reflexivity.
    + rewrite IH. destruct (existsb _ rest); reflexivity.
Qed.

Lemma NoDup_keyed_set {V : Type} (k : string) (v : V) (l : list (string * V)) :
  NoDup (map fst l) -> NoDup (map fst (keyed_set k v l)).
Proof.
  intros Hnd. rewrite keys_keyed_set. destruct (has_key k l) eqn:Hk; [ exact Hnd | ].
  apply NoDup_app; [ exact Hnd | repeat constructor; intros [] | ].
  intros x Hx Hin. destruct Hin as [E | []]. subst x.
  apply has_key_In in Hx. rewrite Hk in Hx. discriminate.
Qed.

Lemma NoDup_keyed_delete {V : Type} (k : string) (l : list (string * V)) :
  NoDup (map fst l) -> NoDup (map fst (keyed_delete k l)).
Proof.
  induction l as [| [k' v'] rest IH]; cbn [keyed_delete map fst]; intros Hnd;
    [ constructor | ].
  inversion Hnd as [| ? ? Hnotin Hrest]; subst.
  destruct (k' =? k)%string; [ exact Hrest | ].
  cbn [map fst]. constructor; [ | apply IH; exact Hrest ].
  intros Hin. apply Hnotin. apply in_map_iff in Hin. destruct Hin as (e & E & Hin).
  apply in_map_iff. exists e. split; [ exact E | ].
  apply (keyed_delete_subset k rest e Hin).
Qed.

Lemma well_formed_frame (w w' : World.t) :
  well_formed w ->
  World.entries w' = World.entries w ->
  (World.allocated w <= World.allocated w')%nat ->
  (forall r : Ref, (r < World.allocated w)%nat ->
                   Player.id (World.objects w' r) = Player.id (World.objects w r)) ->
  well_formed w'.
Proof.
  intros [Hnd Hid] He Ha Ho. split; [ rewrite He; exact Hnd | ].
  intros k r Hin. rewrite He in Hin. destruct (Hid k r Hin) as [E L].
  split; [ rewrite (Ho r L); exact E | lia ].
Qed.

Lemma well_formed_delete (w w' : World.t) (k : string) :
  well_formed w ->
  World.entries w' = keyed_delete k (World.entries w) ->
  World.allocated w' = World.allocated w ->
  World.objects w' = World.objects w ->
  well_formed w'.
Proof.
  intros [Hnd Hid] He Ha Ho. split; [ rewrite He; apply NoDup_keyed_delete; exact Hnd | ].
  intros k' r Hin. rewrite He in Hin. apply keyed_delete_subset in Hin.
  rewrite Ho, Ha. apply Hid. exact Hin.
Qed.

(** X15: every handler, whether it returns or throws, keeps the registry
    well formed: no id is the key of two entries, every player is
    registered under its own id, and every entry is an object that
    [createPlayer] made. *)
Theorem the_registry_stays_well_formed (w : World.t) :
  well_formed w ->
  (forall (ws : Conn) (req : Request) (e : Entropy) (now : Z),
      well_formed (exec (on_connection ws req e now) w)) /\
  (forall (player : Ref) (raw : RawData) (now : Z),
      well_formed (exec (on_message player raw now) w)) /\
  (forall player : Ref, well_formed (exec (on_close player) w)) /\
  (forall now : Z, well_formed (exec (simulation_loop now) w)) /\
  (forall now : Z, well_formed (exec (snapshot_broadcaster now) w)).
Proof.
  intros Hw. split; [ | split; [ | split; [ | split ] ] ].
  - intros ws req e now.
    destruct (on_connection_frame ws req e now w) as (Ho & Ha & He & _). cbv zeta in *.
    assert (Hold : forall r : Ref, (r < World.allocated w)%nat ->
              Player.id (World.objects (exec (on_connection ws req e now) w) r)
              = Player.id (World.objects w r)).
    { intros r L. rewrite Ho. cbn. destruct (Nat.eqb r (World.allocated w)) eqn:E;
        [ | reflexivity ]. apply Nat.eqb_eq in E. lia. }
    destruct He as [He | He].
    + apply (well_formed_frame w); [ exact Hw | exact He | lia | exact Hold ].
    + destruct Hw as [Hnd Hid]. split; [ rewrite He; apply NoDup_keyed_set; exact Hnd | ].
      intros k r Hin. rewrite He in Hin. apply keyed_set_In_inv in Hin.
      destruct Hin as [E | Hin].
      * inversion E; subst. rewrite Ho, created_object, Ha. split; [ reflexivity | lia ].
      * destruct (Hid k r Hin) as [E L]. rewrite (Hold r L), Ha. split; [ exact E | lia ].
  - intros player raw now. apply (well_formed_frame w).
    + exact Hw.
    + destruct (on_message_frame player raw now w) as (_ & He & _). exact He.
    + rewrite on_message_allocated. lia.
    + intros r _. destruct (on_message_objects player raw now w r) as [H _]. cbv zeta in H.
      destruct H as [H | [_ [H | [i H]]]]; rewrite H; reflexivity.
  - intros player. unfold exec. rewrite on_close_cases. cbv zeta.
    destruct (has_key "delete" (World.own w)); [ exact Hw | ].
    destruct (has_key "values" (World.own w)); cbn [snd];
      apply (well_formed_delete w _ (Player.id (World.objects w player)) Hw); reflexivity.
  - intros now. unfold exec. rewrite simulation_loop_cases.
    destruct (has_key "values" (World.own w)).
    + cbn [snd]. apply (well_formed_frame w); [ exact Hw | reflexivity | cbn; lia | ].
      intros r _. reflexivity.
    + set (dt := IZR (now - World.lastTime w) / 1000).
      destruct (tick_loop_objects dt (map snd (World.entries w)) (World.set_lastTime w now))
        as (_ & He & _).
      destruct (tick_loop_ids dt (map snd (World.entries w)) (World.set_lastTime w now))
        as [Ha Hid].
      unfold exec in *. cbv zeta in *.
      apply (well_formed_frame w); [ exact Hw | exact He | rewrite Ha; cbn; lia | ].
      intros r _. rewrite Hid. reflexivity.
  - intros now. unfold exec. rewrite snapshot_broadcaster_cases.
    destruct (has_key "values" (World.own w)); cbn [snd]; [ exact Hw | ].
    apply (well_formed_frame w); [ exact Hw | reflexivity | cbn; lia | ].
    intros r _. reflexivity.
Qed.

Lemma well_formed_empty_world : well_formed empty_world.
Proof. split; [ constructor | intros k r [] ]. Qed.

(** The registry after the first connection to a server. *)
Lemma the_registry_stays_well_formed_witness : well_formed world_A.
Proof.
  destruct (the_registry_stays_well_formed empty_world well_formed_empty_world)
    as (H & _).
  exact (H 1%nat request_A entropy_A 1000%Z).
Defined.

Lemma well_formed_refs (w : World.t) :
  well_formed w -> NoDup (map snd (World.entries w)).
Proof.
  intros [Hnd Hid]. revert Hnd Hid. generalize (World.objects w). intros objects.
  induction (World.entries w) as [| [k r] rest IH]; intros Hnd Hid; cbn [map snd fst] in *.
  - constructor.
  - inversion Hnd as [| ? ? Hnotin Hrest]; subst. constructor.
    + intros Hin. apply in_map_iff in Hin. destruct Hin as ([k' r'] & E & Hin).
      cbn [snd] in E. subst r'. apply Hnotin.
      destruct (Hid k r (or_introl eq_refl)) as [E1 _].
      destruct (Hid k' r (or_intror Hin)) as [E2 _].
      rewrite <- E1, E2. apply in_map_iff. exists (k', r). auto.
    + apply IH; [ exact Hrest | ]. intros k' r' Hin. apply Hid. right. exact Hin.
Qed.

Lemma well_formed_world_A : well_formed world_A.
Proof.
  split.
  - vm_compute. repeat constructor. intros [].
  - intros k r Hin. vm_compute in Hin. destruct Hin as [E | []]. inversion E; subst.
    split; [ vm_compute; reflexivity | vm_compute; repeat constructor ].
Qed.

(** X16: a run of the simulation loop ticks every registered player once,
    with the time since the run before, and touches nothing else: the
    objects that are not registered, the registry, what was sent. *)
Theorem a_run_of_the_loop_ticks_every_registered_player_once (now : Z) (w : World.t) :
  has_key "values" (World.own w) = false ->
  well_formed w ->
  let w' := exec (simulation_loop now) w in
  let dt := IZR (now - World.lastTime w) / 1000 in
  fst (simulation_loop now w) = Normal tt /\
  World.lastTime w' = now /\
  (forall (k : string) (r : Ref),
      In (k, r) (World.entries w) -> World.objects w' r = tick_player dt (World.objects w r)) /\
  (forall r : Ref,
      ~ In r (map snd (World.entries w)) -> World.objects w' r = World.objects w r) /\
  World.entries w' = World.entries w /\
  World.sent w' = World.sent w.
Proof.
  intros Hv Hw. cbv zeta.
  destruct (simulation_loop_once now w Hv (well_formed_refs w Hw))
    as (Hn & He & _ & Hl & Hobj).
  cbv zeta in *. split; [ exact Hn | ]. split; [ exact Hl | ]. split; [ exact Hobj | ].
  unfold exec in *. rewrite (simulation_loop_run now w Hv) in *.
  destruct (tick_loop_objects (IZR (now - World.lastTime w) / 1000)
              (map snd (World.entries w)) (World.set_lastTime w now))
    as (_ & _ & _ & Hs & _ & Hout & _).
  unfold exec in *. cbv zeta in *.
  split; [ exact Hout | ]. split; [ exact He | exact Hs ].
Qed.

(** The loop runs 16 ms after the one connected player pressed right. *)
Lemma a_run_of_the_loop_ticks_every_registered_player_once_witness :
  World.objects (exec (simulation_loop 1116) world_A_right) 0%nat
  = tick_player (IZR (1116 - 0) / 1000) (World.objects world_A_right 0%nat).
Proof.
  destruct (a_run_of_the_loop_ticks_every_registered_player_once 1116%Z world_A_right)
    as (_ & _ & H & _).
  - vm_compute. reflexivity.
  - destruct (on_message_frame 0%nat hold_right 1100%Z world_A) as (_ & He & _).
    apply (well_formed_frame world_A).
    + exact well_formed_world_A.
    + exact He.
    + unfold world_A_right. rewrite on_message_allocated. lia.
    + intros r _. destruct (on_message_objects 0%nat hold_right 1100%Z world_A r) as [Hr _].
      cbv zeta in Hr. unfold world_A_right.
      destruct Hr as [Hr | [_ [Hr | [i Hr]]]]; rewrite Hr; reflexivity.
  - apply (H "0a0a0a0a0a0a0a0a" 0%nat). vm_compute. left. reflexivity.
Defined.

(** ** Identifiers that meet *)

Lemma keyed_get_keyed_set {V : Type} (k : string) (v : V) (l : list (string * V)) :
  keyed_get k (keyed_set k v l) = Some v.
Proof.
  induction l as [| [k' v'] rest IH]; cbn [keyed_set keyed_get].
  - rewrite String.eqb_refl. reflexivity.
  - destruct (k' =? k)%string eqn:E; cbn [keyed_get].
    + rewrite String.eqb_refl. reflexivity.
    + rewrite E. exact IH.
Qed.

Lemma keyed_get_In {V : Type} (k : string) (v : V) (l : list (string * V)) :
  keyed_get k l = Some v -> In (k, v) l.
Proof.
  induction l as [| [k' v'] rest IH]; cbn [keyed_get]; [ discriminate | ].
  destruct (k' =? k)%string eqn:E.
  - intros H. inversion H; subst. apply String.eqb_eq in E. subst. left. reflexivity.
  - intros H. right. apply IH. exact H.
Qed.

Lemma keyed_set_In_other {V : Type} (k : string) (v : V) (l : list (string * V))
    (k' : string) (v' : V) :
  NoDup (map fst l) ->
  In (k', v') (keyed_set k v l) -> (k', v') = (k, v) \/ (In (k', v') l /\ k' <> k).
Proof.
  induction l as [| [k0 v0] rest IH]; cbn [keyed_set map fst]; intros Hnd.
  - intros [H | []]. left. symmetry. exact H.
  - inversion Hnd as [| ? ? Hnotin Hrest]; subst.
    destruct (k0 =? k)%string eqn:E; cbn [In].
    + apply String.eqb_eq in E. subst k0.
      intros [H | H]; [ left; symmetry; exact H | ].
      right. split; [ right; exact H | ]. intros Ek. subst k'. apply Hnotin.
      apply in_map_iff. exists (k, v'). auto.
    + apply String.eqb_neq in E.
      intros [H | H].
      * inversion H; subst. right. split; [ left; reflexivity | exact E ].
      * destruct (IH Hrest H) as [Eq | [Hin Hne]]; [ left; exact Eq | ].
        right. split; [ right; exact Hin | exact Hne ].
Qed.

(** X17: when a new connection draws an id that is already a key of the
    registry, [players.set] replaces the entry: the registry has the same
    keys as before, the id now stands for the new player, and the player
    that had it is in no entry any more, so it is no longer ticked or
    listed.  When the connection of that earlier player closes, its close
    handler deletes the id, and with it the entry of the new player. *)
Theorem a_repeated_id_replaces_the_entry
    (ws : Conn) (address : string) (e : Entropy) (now : Z) (w : World.t) (r0 : Ref) :
  connects ws (Build_Request (Some address)) e w = true ->
  well_formed w ->
  keyed_get (Player.id (new_player ws e now)) (World.entries w) = Some r0 ->
  let id := Player.id (new_player ws e now) in
  let w' := exec (on_connection ws (Build_Request (Some address)) e now) w in
  map fst (World.entries w') = map fst (World.entries w) /\
  keyed_get id (World.entries w') = Some (World.allocated w) /\
  World.objects w' (World.allocated w) = new_player ws e now /\
  ~ In r0 (map snd (World.entries w')) /\
  Player.id (World.objects w' r0) = id /\
  (has_key "delete" (World.own w') = false ->
   has_key id (World.entries (exec (on_close r0) w')) = false).
Proof.
  intros Hc Hw Hget. cbv zeta.
  pose proof (keyed_get_In _ _ _ Hget) as Hin0.
  destruct Hw as [Hnd Hid]. destruct (Hid _ _ Hin0) as [Eid0 L0].
  unfold exec at 1 2 3 4 5. rewrite (on_connection_run ws address e now w Hc). cbn [snd].
  destruct (frame_stage_joined ws address e now w) as (Ho & He & _ & _ & _).
  assert (Hobj0 : World.objects (stage_joined ws address e now w) r0 = World.objects w r0).
  { rewrite Ho. cbn. destruct (Nat.eqb r0 (World.allocated w)) eqn:E; [ | reflexivity ].
    apply Nat.eqb_eq in E. lia. }
  split; [ | split; [ | split; [ | split; [ | split ] ] ] ].
  - rewrite He, keys_keyed_set.
    assert (Hk : has_key (Player.id (new_player ws e now)) (World.entries w) = true).
    { apply has_key_In. apply in_map_iff. exists (Player.id (new_player ws e now), r0). auto. }
    rewrite Hk. reflexivity.
  - rewrite He. apply keyed_get_keyed_set.
  - rewrite Ho. apply created_object.
  - intros Hin. apply in_map_iff in Hin. destruct Hin as ([k r] & E & Hin). cbn [snd] in E.
    subst r. rewrite He in Hin. apply (keyed_set_In_other _ _ _ _ _ Hnd) in Hin.
    destruct Hin as [E | [Hin Hne]].
    + inversion E; subst. lia.
    + destruct (Hid _ _ Hin) as [Ek _]. apply Hne. rewrite <- Ek. exact Eid0.
  - rewrite Hobj0. exact Eid0.
  - intros Hd. unfold exec. rewrite (on_connection_run ws address e now w Hc). cbn [snd].
    rewrite on_close_cases. cbv zeta.
    unfold exec in Hd. rewrite (on_connection_run ws address e now w Hc) in Hd.
    cbn [snd] in Hd. rewrite Hd, Hobj0, Eid0.
    assert (Hgone : has_key (Player.id (new_player ws e now))
                      (keyed_delete (Player.id (new_player ws e now))
                         (World.entries (stage_joined ws address e now w))) = false).
    { apply keyed_delete_removes. rewrite He. apply NoDup_keyed_set. exact Hnd. }
    destruct (has_key "values" (World.own (stage_joined ws address e now w)));
      cbn [snd]; [ exact Hgone | ].
    unfold after_close. cbv zeta.
    cbn [World.entries World.set_console after_broadcast World.set_sent World.set_entries].
    rewrite Hobj0, Eid0. exact Hgone.
Qed.

(** After A, a connection on transport 2 draws the eight bytes of A again. *)
Lemma a_repeated_id_replaces_the_entry_witness :
  keyed_get "0a0a0a0a0a0a0a0a"
    (World.entries
       (exec (on_connection 2 (Build_Request (Some "10.0.0.9")) entropy_A' 3000) world_A))
  = Some 1%nat.
Proof.
  destruct (a_repeated_id_replaces_the_entry 2%nat "10.0.0.9" entropy_A' 3000%Z world_A 0%nat)
    as (_ & H & _).
  - vm_compute. reflexivity.
  - exact well_formed_world_A.
  - vm_compute. reflexivity.
  - exact H.
Defined.

(** X19: no handler removes a record of line 58: the message handler, the
    close handler and the two timers leave the own properties of [players]
    as they are, and a connection at most adds one or replaces the one of
    its key.  The snapshot of the connection handler therefore lists every
    connection the server ever had. *)
Theorem the_records_of_line_58_are_never_removed (w : World.t) :
  (forall (player : Ref) (raw : RawData) (now : Z),
      World.own (exec (on_message player raw now) w) = World.own w) /\
  (forall player : Ref, World.own (exec (on_close player) w) = World.own w) /\
  (forall now : Z, World.own (exec (simulation_loop now) w) = World.own w) /\
  (forall now : Z, World.own (exec (snapshot_broadcaster now) w) = World.own w) /\
  (forall (ws : Conn) (req : Request) (e : Entropy) (now : Z) (k : string),
      has_key k (World.own w) = true ->
      has_key k (World.own (exec (on_connection ws req e now) w)) = true).
Proof.
  split; [ | split; [ | split; [ | split ] ] ].
  - intros player raw now. destruct (on_message_frame player raw now w) as (_ & _ & H).
    exact H.
  - intros player. unfold exec. rewrite on_close_cases. cbv zeta.
    destruct (has_key "delete" (World.own w)); [ reflexivity | ].
    destruct (has_key "values" (World.own w)); reflexivity.
  - intros now. unfold exec. rewrite simulation_loop_cases.
    destruct (has_key "values" (World.own w)); [ reflexivity | ].
    destruct (tick_loop_objects (IZR (now - World.lastTime w) / 1000)
                (map snd (World.entries w)) (World.set_lastTime w now))
      as (_ & _ & Ho & _).
    exact Ho.
  - intros now. unfold exec. rewrite snapshot_broadcaster_cases.
    destruct (has_key "values" (World.own w)); reflexivity.
  - intros ws req e now k Hk.
    destruct (on_connection_frame ws req e now w) as (_ & _ & _ & Hown). cbv zeta in Hown.
    destruct Hown as [H | [ip H]]; rewrite H; [ exact Hk | ].
    rewrite has_key_keyed_set, Hk. reflexivity.
Qed.

(** ** Messages that come late *)

(** X20: a message handled for a player that is in no entry of the
    registry, because its connection was closed or its id was taken over,
    changes nothing that the server shows: the registry, the players in
    it and the periodic snapshot are as before. *)
Theorem a_message_of_an_unregistered_player_changes_no_snapshot
    (player : Ref) (raw : RawData) (now ts : Z) (w : World.t) :
  ~ In player (map snd (World.entries w)) ->
  let w' := exec (on_message player raw now) w in
  World.entries w' = World.entries w /\
  registered w' = registered w /\
  periodic_snapshot ts w' = periodic_snapshot ts w.
Proof.
  intros Hout. cbv zeta.
  destruct (on_message_frame player raw now w) as (_ & He & _). cbv zeta in He.
  assert (Hreg : registered (exec (on_message player raw now) w) = registered w).
  { unfold registered. rewrite He. apply map_ext_in. intros [k r] Hin. cbn [snd].
    destruct (on_message_objects player raw now w r) as [H _]. cbv zeta in H.
    destruct H as [H | [E _]]; [ exact H | ].
    exfalso. apply Hout. subst r. apply in_map_iff. exists (k, player). auto. }
  split; [ exact He | ]. split; [ exact Hreg | ].
  unfold periodic_snapshot. rewrite Hreg. reflexivity.
Qed.

(** A held key that arrives after A has disconnected. *)
Lemma a_message_of_an_unregistered_player_changes_no_snapshot_witness :
  periodic_snapshot 1300 (exec (on_message 0 hold_right 1250) world_A_gone)
  = periodic_snapshot 1300 world_A_gone.
Proof.
  destruct (a_message_of_an_unregistered_player_changes_no_snapshot
              0%nat hold_right 1250%Z 1300%Z world_A_gone) as (_ & _ & H).
  - vm_compute. intros [].
  - exact H.
Defined.

(** ** The theorems on disconnection and snapshots, at work *)

(** A leaves while B, on an open transport, stays. *)
Lemma disconnect_removes_and_announces_witness :
  has_key "0a0a0a0a0a0a0a0a"
    (World.entries (exec (on_close 0) (transport 1 CLOSED world_AB))) = false /\
  delivered (on_close 0) (transport 1 CLOSED world_AB)
  = [(2%nat, remove_message "0a0a0a0a0a0a0a0a")].
Proof.
  assert (Hw : registry_ok (transport 1 CLOSED world_AB)).
  { split.
    - vm_compute. repeat constructor; [ intros [H | []]; discriminate | intros [] ].
    - intros k r Hin. vm_compute in Hin.
      destruct Hin as [E | [E | []]]; inversion E; subst; vm_compute; reflexivity. }
  destruct (disconnect_removes_and_announces 0%nat (transport 1 CLOSED world_AB)
              eq_refl eq_refl Hw) as (_ & Hgone & _ & Hd & _).
  split; [ exact Hgone | ]. rewrite Hd. vm_compute. reflexivity.
Defined.

(** The periodic snapshot when A and B are connected. *)
Lemma periodic_snapshot_lists_the_registry_witness :
  snapshot_ids (periodic_snapshot 2100 world_AB)
  = [JStr "0a0a0a0a0a0a0a0a"; JStr "0b0b0b0b0b0b0b0b"].
Proof.
  destruct (periodic_snapshot_lists_the_registry 2100%Z world_AB eq_refl)
    as (_ & _ & _ & _ & H & _).
  rewrite H. vm_compute. reflexivity.
Defined.

(** The snapshot that the connection handler makes for B after A left. *)
Lemma join_snapshot_lists_the_own_records_witness :
  has_key "k3j9x2a" (World.own (exec connection_B world_A_gone)) = true.
Proof.
  destruct (join_snapshot_lists_the_own_records 2%nat "::ffff:10.0.0.8" entropy_B 2000%Z
              world_A_gone eq_refl) as (_ & _ & _ & _ & _ & H).
  apply H. vm_compute. reflexivity.
Defined.

(** ** Movement, further *)

(** X24: a tick that reaches no bound moves the player by its velocity
    times [dt], whatever the sign of [dt]: the loop does not guard against
    a clock that steps back, and a negative [dt] moves a player against
    the key it holds. *)
Theorem a_tick_within_the_bounds_moves_by_velocity_times_dt (dt : R) (p : Player.t) :
  let vx := fst (direction (Player.input p)) * Player.speed p in
  let vy := snd (direction (Player.input p)) * Player.speed p in
  20 <= Player.x p + vx * dt <= 980 ->
  20 <= Player.y p + vy * dt <= 580 ->
  Player.x (tick_player dt p) = Player.x p + vx * dt /\
  Player.y (tick_player dt p) = Player.y p + vy * dt /\
  (dt < 0 -> 0 < vx -> Player.x (tick_player dt p) < Player.x p).
Proof.
  cbv zeta. intros Hx Hy. rewrite tick_player_x, tick_player_y.
  rewrite !clamp_id by assumption.
  split; [ reflexivity | ]. split; [ reflexivity | ].
  intros Hdt Hv. nra.
Qed.

(** The clock steps back by half a second while the right key is held. *)
Lemma a_tick_within_the_bounds_moves_by_velocity_times_dt_witness :
  Player.x (tick_player (- / 2) (Player.mk "a" 1 500 300 0 0 180 right_only "#000000" 0))
  < 500.
Proof.
  destruct (a_tick_within_the_bounds_moves_by_velocity_times_dt (- / 2)
              (Player.mk "a" 1 500 300 0 0 180 right_only "#000000" 0)) as (_ & _ & H).
  - cbn [Player.input Player.x Player.speed]. rewrite direction_right_only. cbn [fst]. lra.
  - cbn [Player.input Player.y Player.speed]. rewrite direction_right_only. cbn [snd]. lra.
  - apply H.
    + lra.
    + cbn [Player.input Player.speed]. rewrite direction_right_only. cbn [fst]. lra.
Defined.

Lemma inv_sqrt2_digits : 7067 / 10000 < 1 / Math_sqrt 2 < 7072 / 10000.
Proof.
  pose proof inv_sqrt2_sq as Hs. pose proof inv_sqrt2_range as [H0 H1].
  set (k := 1 / Math_sqrt 2) in *. split; nra.
Qed.

Lemma Math_round_is (z : Z) (a : R) : IZR z - / 2 <= a < IZR z + / 2 -> Math_round a = IZR z.
Proof.
  intros H. unfold Math_round. f_equal. apply Zfloor_eq. lra.
Qed.

Lemma rounded_component (c : R) :
  c = 0 \/ c = 1 \/ c = -1 \/ c = 1 / Math_sqrt 2 \/ c = - (1 / Math_sqrt 2) ->
  exists z : Z, Math_round (c * 180) = IZR z /\ In z [-180; -127; 0; 127; 180]%Z.
Proof.
  pose proof inv_sqrt2_digits as [Hlo Hhi].
  intros [H | [H | [H | [H | H]]]]; subst c.
  - exists 0%Z. split; [ apply Math_round_is; lra | cbn; tauto ].
  - exists 180%Z. split; [ apply Math_round_is; lra | cbn; tauto ].
  - exists (-180)%Z. split; [ apply Math_round_is; lra | cbn; tauto ].
  - exists 127%Z. split; [ apply Math_round_is; lra | cbn; tauto ].
  - exists (-127)%Z. split; [ apply Math_round_is; lra | cbn; tauto ].
Qed.

Lemma direction_components (i : Input.t) :
  let c := fst (direction i) in
  let d := snd (direction i) in
  (c = 0 \/ c = 1 \/ c = -1 \/ c = 1 / Math_sqrt 2 \/ c = - (1 / Math_sqrt 2)) /\
  (d = 0 \/ d = 1 \/ d = -1 \/ d = 1 / Math_sqrt 2 \/ d = - (1 / Math_sqrt 2)).
Proof.
  cbv zeta. rewrite direction_cases.
  destruct i as [[] [] [] []];
    cbn [Input.up Input.down Input.left Input.right xorb andb negb fst snd];
    split;
    first [ left; lra | right; left; lra | right; right; left; lra
          | right; right; right; left; lra | right; right; right; right; lra ].
Qed.

(** X25: for a player with the speed 180 that [createPlayer] gives, the
    velocity that a periodic snapshot reports after a tick has components
    among -180, -127, 0, 127 and 180: a diagonal is reported as 127 on
    each axis. *)
Theorem a_snapshot_reports_five_velocities (dt : R) (p : Player.t) :
  Player.speed p = 180 ->
  exists zx zy : Z,
    Math_round (Player.vx (tick_player dt p)) = IZR zx /\
    Math_round (Player.vy (tick_player dt p)) = IZR zy /\
    In zx [-180; -127; 0; 127; 180]%Z /\ In zy [-180; -127; 0; 127; 180]%Z /\
    snapshot_item (tick_player dt p)
    = JObj [("id", JStr (Player.id p));
            ("x", JNum (Math_round (Player.x (tick_player dt p))));
            ("y", JNum (Math_round (Player.y (tick_player dt p))));
            ("vx", JNum (IZR zx)); ("vy", JNum (IZR zy));
            ("color", JStr (Player.color p))].
Proof.
  intros Hs. destruct (direction_components (Player.input p)) as [Hc Hd]. cbv zeta in *.
  destruct (rounded_component _ Hc) as (zx & Ex & Hx).
  destruct (rounded_component _ Hd) as (zy & Ey & Hy).
  exists zx, zy. rewrite tick_player_vx, tick_player_vy, Hs.
  split; [ exact Ex | ]. split; [ exact Ey | ]. split; [ exact Hx | ]. split; [ exact Hy | ].
  unfold snapshot_item. rewrite tick_player_vx, tick_player_vy, Hs, Ex, Ey.
  destruct (tick_player_frame dt p) as (Fid & _ & _ & _ & Fc & _). rewrite Fid, Fc.
  reflexivity.
Qed.

(** A player that holds up and left. *)
Lemma a_snapshot_reports_five_velocities_witness :
  exists zx zy : Z,
    Math_round (Player.vx (tick_player (/ 60)
                  (Player.mk "a" 1 500 300 0 0 180 up_left "#000000" 0))) = IZR zx /\
    Math_round (Player.vy (tick_player (/ 60)
                  (Player.mk "a" 1 500 300 0 0 180 up_left "#000000" 0))) = IZR zy /\
    In zx [-180; -127; 0; 127; 180]%Z /\ In zy [-180; -127; 0; 127; 180]%Z.
Proof.
  destruct (a_snapshot_reports_five_velocities (/ 60)
              (Player.mk "a" 1 500 300 0 0 180 up_left "#000000" 0) eq_refl)
    as (zx & zy & H1 & H2 & H3 & H4 & _).
  exists zx, zy. auto.
Defined.
